(** * The LSP code indexer of the Code plugin
    (x-pack/plugins/code/server/indexer/lsp_indexer.ts)

    A shallow embedding of [LspIndexer]: its per-file step [processRequest],
    the enumeration [prepareRequests], the cleanup [cleanIndex] and the
    [start]/[cancel] overrides, together with the collaborators they talk to
    (language server, file system, search backend, batch write buffer).
    Further down: the triggers of the embeddable framework, the filter of the
    event editor and the modal that picks the type of a new action. *)

From stdpp Require Import base option list strings gmap fin_maps.

Open Scope string_scope.
Open Scope list_scope.

(** ** Outcomes of fallible calls and the effect monad *)

(** A rejected promise or thrown exception carries an error value; only its
    message is observable in this file. *)
Definition Error := string.

Inductive Result (A : Type) : Type :=
  | Ok (a : A)
  | Throw (e : Error).
Arguments Ok {A} a.
Arguments Throw {A} e.

Definition is_Ok {A} (r : Result A) : bool :=
  match r with Ok _ => true | Throw _ => false end.

(** ** Data model (x-pack/plugins/code/model) *)

Definition RepositoryUri := string.

Inductive IndexStatsKey := File | Symbol | Reference.

#[global] Instance IndexStatsKey_eq_dec : EqDecision IndexStatsKey.
Proof. solve_decision. Defined.

#[global] Instance IndexStatsKey_countable : Countable IndexStatsKey.
Proof.
  refine (inj_countable'
    (λ k, match k with File => 0 | Symbol => 1 | Reference => 2 end)
    (λ n, match n with 0 => File | 1 => Symbol | _ => Reference end) _).
  by intros [].
Defined.

(** [IndexStats] is a [Map<IndexStatsKey, number>]. *)
Abbreviation IndexStats := (gmap IndexStatsKey nat).

Record LspIndexRequest := {
  req_repoUri : RepositoryUri;
  req_localRepoPath : string;
  req_filePath : string;
  req_revision : string;
}.

Record Document := {
  doc_repoUri : RepositoryUri;
  doc_path : string;
  doc_content : string;
  doc_language : string;
  doc_qnames : list string;
}.

(** Language-server output.  The indexer only ever reads
    [symbol.symbolInformation.name]; the other fields travel as payload. *)
Record SymbolInformation := {
  name : string;
  kind : nat;
  location : string;
}.

Record DetailSymbolInformation := {
  symbolInformation : SymbolInformation;
  qname : string;
}.

Record ReferenceInfo := {
  ref_category : nat;
  ref_location : string;
  ref_symbol : string;
}.

(** One element of the [result] array of a [textDocument/full] response. *)
Record Full := {
  symbols : list DetailSymbolInformation;
  references : list ReferenceInfo;
}.

Record ResponseMessage := {
  result : list Full;
}.

(** The [body: any] handed to the batch helper. *)
Inductive Payload :=
  | PSymbol (s : DetailSymbolInformation)
  | PReference (r : ReferenceInfo)
  | PDocument (d : Document).

(** ** Search backend *)

(** A stored entry is a JSON object: field name to (rendered) value. *)
Abbreviation EsDoc := (gmap string string).

(** The fragment of the query DSL that [cleanIndex] uses. *)
#[warnings="-register-all"]
Inductive Query :=
  | MatchAll
  | Exists (field : string)
  | BoolMustNot (clauses : list Query).

Fixpoint matches (q : Query) (d : EsDoc) : bool :=
  match q with
  | MatchAll => true
  | Exists f => bool_decide (is_Some (d !! f))
  | BoolMustNot qs => forallb (λ q', negb (matches q' d)) qs
  end.

Record DeleteByQueryParams := {
  dq_index : string;
  dq_query : Query;
}.

Record IndexCreationRequest := {
  icr_index : string;
}.

(** The client can reject any call; which calls it rejects is up to the
    backend, so it is an input of the model. *)
Record EsClient := {
  deleteByQuery_rejects : DeleteByQueryParams → option Error;
  create_rejects : IndexCreationRequest → option Error;
}.

Record EsState := {
  indices : gmap string (list EsDoc);
  deleteRequests : list DeleteByQueryParams;
}.

(** ** Log *)

Inductive LogLevel := LDebug | LInfo | LError.

Definition LogEntry : Type := LogLevel * string.

(** ** Batch write buffer state *)

Record BatchEntry := {
  destinationCollection : string;
  payload : Payload;
}.

(** Calls received by the buffer, in order (a history of the interface, kept
    next to the buffer so that statements can talk about the calls made). *)
Inductive HelperCall :=
  | CallIndex (collection : string) (body : Payload)
  | CallFlush
  | CallCancel.

Record BatchIndexHelperState := {
  batch : list BatchEntry;
  batchSize : nat;
  helper_cancelled : bool;
  bulks : list (string * list Payload);
  received : list HelperCall;
}.

(** ** Run state *)

Inductive RunState :=
  | Created
  | PreparingIndices
  | EnumeratingRequests
  | Processing
  | CleaningUp
  | Completed
  | Cancelled
  | Failed.

#[global] Instance RunState_eq_dec : EqDecision RunState.
Proof. solve_decision. Defined.

Record State := {
  batchIndexHelper : BatchIndexHelperState;
  cancelled : bool;
  es : EsState;
  log : list LogEntry;
  runState : RunState;
  progress : list (nat * nat);
}.

(** ** The effect monad: state passing with exceptions.  The state survives a
    throw, as the effects of a JavaScript call do. *)

Definition M (A : Type) : Type := State → Result A * State.

#[global] Instance M_ret : MRet M := λ A a s, (Ok a, s).

#[global] Instance M_bind : MBind M := λ A B f m s,
  match m s with
  | (Ok a, s') => f a s'
  | (Throw e, s') => (Throw e, s')
  end.

Definition throw {A} (e : Error) : M A := λ s, (Throw e, s).

(** [await] of a promise whose outcome is already determined. *)
Definition await {A} (r : Result A) : M A := λ s, (r, s).

(** [try { body } catch (error) { handler }] *)
Definition try_catch {A} (body : M A) (handler : Error → M A) : M A := λ s,
  match body s with
  | (Ok a, s') => (Ok a, s')
  | (Throw e, s') => handler e s'
  end.

(** [try { body } finally { fin }]: the outcome of [body] stands unless
    [fin] itself throws. *)
Definition try_finally {A} (body : M A) (fin : M unit) : M A := λ s,
  match body s with
  | (r, s') =>
      match fin s' with
      | (Ok _, s'') => (r, s'')
      | (Throw e, s'') => (Throw e, s'')
      end
  end.

Definition modify (f : State → State) : M unit := λ s, (Ok tt, f s).

(** [for (const x of xs) { body x }] *)
Fixpoint for_of {A} (xs : list A) (body : A → M unit) : M unit :=
  match xs with
  | [] => mret tt
  | x :: rest => body x ;; for_of rest body
  end.

(** State updates, one per field. *)
Definition set_helper (f : BatchIndexHelperState → BatchIndexHelperState) (s : State) : State :=
  {| batchIndexHelper := f (batchIndexHelper s); cancelled := cancelled s; es := es s;
     log := log s; runState := runState s; progress := progress s |}.

Definition set_cancelled (b : bool) (s : State) : State :=
  {| batchIndexHelper := batchIndexHelper s; cancelled := b; es := es s;
     log := log s; runState := runState s; progress := progress s |}.

Definition set_es (f : EsState → EsState) (s : State) : State :=
  {| batchIndexHelper := batchIndexHelper s; cancelled := cancelled s; es := f (es s);
     log := log s; runState := runState s; progress := progress s |}.

Definition add_log (entry : LogEntry) (s : State) : State :=
  {| batchIndexHelper := batchIndexHelper s; cancelled := cancelled s; es := es s;
     log := log s ++ [entry]; runState := runState s; progress := progress s |}.

Definition set_runState (r : RunState) (s : State) : State :=
  {| batchIndexHelper := batchIndexHelper s; cancelled := cancelled s; es := es s;
     log := log s; runState := r; progress := progress s |}.

Definition add_progress (p : nat * nat) (s : State) : State :=
  {| batchIndexHelper := batchIndexHelper s; cancelled := cancelled s; es := es s;
     log := log s; runState := runState s; progress := progress s ++ [p] |}.

Module Logger.

Definition debug (msg : string) : M unit := modify (add_log (LDebug, msg)).
Definition info (msg : string) : M unit := modify (add_log (LInfo, msg)).
Definition error (msg : string) : M unit := modify (add_log (LError, msg)).

End Logger.

(** ** Collaborators *)

(** [fs.Stats], as far as the indexer looks at it. *)
Record Stats := {
  isSymbolicLink : bool;
}.

(** What [workspaceHandler.openWorkspace] resolves to; [workdir] is
    [workspaceRepo.workdir()]. *)
Record Workspace := {
  workdir : string;
  workspaceRevision : string;
}.

Record LspService := {
  sendRequest : string → string → bool → Result (option ResponseMessage);
  supportLanguage : string → bool;
  openWorkspace : RepositoryUri → string → Result Workspace;
}.

Record ServerOptions := {
  repoPath : string;
  enableGlobalReference : bool;
}.

(** [Number.MAX_SAFE_INTEGER] *)
Definition MAX_SAFE_INTEGER : N := 9007199254740991%N.

(** Everything [lsp_indexer.ts] imports and whose code lives elsewhere: the
    node file system, [GitOperations.fileTree], [RepositoryUtils.getAllFiles],
    the language detectors, [toCanonicalUrl], and the names and reserved
    fields of ./schema.  They are inputs of the model. *)
Record World := {
  lstat : string → Result Stats;
  readlink : string → Result string;
  readFile : string → Result string;
  toCanonicalUrl : RepositoryUri → string → string → string → string;
  detectLanguage : string → string → string;
  detectLanguageByFilename : string → option string;
  FileTree : Type;
  fileTree : string → RepositoryUri → string → string → N → N → bool → N → Result FileTree;
  getAllFiles : FileTree → list string;
  SymbolIndexName : RepositoryUri → string;
  ReferenceIndexName : RepositoryUri → string;
  DocumentIndexName : RepositoryUri → string;
  RepositoryReservedField : string;
  RepositoryGitStatusReservedField : string;
  RepositoryLspIndexStatusReservedField : string;
  RepositoryDeleteStatusReservedField : string;
  getDocumentIndexCreationRequest : RepositoryUri → IndexCreationRequest;
  getReferenceIndexCreationRequest : RepositoryUri → IndexCreationRequest;
  getSymbolIndexCreationRequest : RepositoryUri → IndexCreationRequest;
}.

(** The constructor arguments of [LspIndexer]. *)
Record LspIndexerConfig := {
  repoUri : RepositoryUri;
  revision : string;
  lspService : LspService;
  options : ServerOptions;
  client : EsClient;
}.

(** ** The search-backend client *)

Module Client.

Definition record_delete (params : DeleteByQueryParams) (e : EsState) : EsState :=
  {| indices := indices e; deleteRequests := deleteRequests e ++ [params] |}.

Definition apply_delete (params : DeleteByQueryParams) (e : EsState) : EsState :=
  {| indices := alter (List.filter (λ d, negb (matches (dq_query params) d)))
                      (dq_index params) (indices e);
     deleteRequests := deleteRequests e |}.

(** Modelled from the spec: the client (../lib/esqueue) is not among the
    sources.  Section 6: a delete-by-query API accepting (collectionName,
    queryPredicate).  Every entry of the collection that matches the query is
    removed, unless the backend rejects the call; the call is recorded
    either way. *)
Definition deleteByQuery (c : EsClient) (params : DeleteByQueryParams) : M unit := λ s,
  let s1 := set_es (record_delete params) s in
  match deleteByQuery_rejects c params with
  | Some e => (Throw e, s1)
  | None => (Ok tt, set_es (apply_delete params) s1)
  end.

Definition apply_create (req : IndexCreationRequest) (e : EsState) : EsState :=
  {| indices := match indices e !! icr_index req with
                | Some _ => indices e
                | None => <[icr_index req := []]> (indices e)
                end;
     deleteRequests := deleteRequests e |}.

(** Modelled from the spec: section 6, a collection-creation API, idempotent
    on an existing collection. *)
Definition create (c : EsClient) (req : IndexCreationRequest) : M unit := λ s,
  match create_rejects c req with
  | Some e => (Throw e, s)
  | None => (Ok tt, set_es (apply_create req) s)
  end.

End Client.

(** ** Batch write buffer *)

Module BatchIndexHelper.

Definition record_call (c : HelperCall) (h : BatchIndexHelperState) : BatchIndexHelperState :=
  {| batch := batch h; batchSize := batchSize h; helper_cancelled := helper_cancelled h;
     bulks := bulks h; received := received h ++ [c] |}.

(** Writes are grouped per destination collection, one bulk operation each. *)
Definition groupByCollection (b : list BatchEntry) : list (string * list Payload) :=
  (λ c, (c, payload <$> List.filter (λ e, bool_decide (destinationCollection e = c)) b))
    <$> remove_dups (destinationCollection <$> b).

Definition send_all (h : BatchIndexHelperState) : BatchIndexHelperState :=
  {| batch := []; batchSize := batchSize h; helper_cancelled := helper_cancelled h;
     bulks := bulks h ++ groupByCollection (batch h); received := received h |}.

Definition enqueue (e : BatchEntry) (h : BatchIndexHelperState) : BatchIndexHelperState :=
  {| batch := batch h ++ [e]; batchSize := batchSize h; helper_cancelled := helper_cancelled h;
     bulks := bulks h; received := received h |}.

Definition discard (h : BatchIndexHelperState) : BatchIndexHelperState :=
  {| batch := []; batchSize := batchSize h; helper_cancelled := true;
     bulks := bulks h; received := received h |}.

(** Modelled from the spec: [BatchIndexHelper] (./batch_index_helper) is not
    among the sources.  Section 4.1: [index] enqueues one write and returns,
    flushing automatically once the buffer reaches the configured size; after
    [cancel] it is a no-op.  It never raises to its caller.  (The time
    threshold of the automatic flush is not modelled.) *)
Definition index_step (collection : string) (body : Payload)
    (h : BatchIndexHelperState) : BatchIndexHelperState :=
  let h1 := record_call (CallIndex collection body) h in
  if helper_cancelled h1 then h1
  else
    let h2 := enqueue {| destinationCollection := collection; payload := body |} h1 in
    if decide (batchSize h2 ≤ List.length (batch h2))%nat then send_all h2 else h2.

Definition index (collection : string) (body : Payload) : M unit :=
  modify (set_helper (index_step collection body)).

(** Modelled from the spec: section 4.1, [flush] forces all queued writes for
    all destinations to be sent as bulk operations. *)
Definition flush_step (h : BatchIndexHelperState) : BatchIndexHelperState :=
  send_all (record_call CallFlush h).

Definition flush : M unit := modify (set_helper flush_step).

(** Modelled from the spec: section 4.1, [cancel] discards the buffer and
    suppresses any future write acceptance. *)
Definition cancel_step (h : BatchIndexHelperState) : BatchIndexHelperState :=
  discard (record_call CallCancel h).

Definition cancel : M unit := modify (set_helper cancel_step).

(** A freshly constructed helper. *)
Definition new (size : nat) : BatchIndexHelperState :=
  {| batch := []; batchSize := size; helper_cancelled := false; bulks := [];
     received := [] |}.

End BatchIndexHelper.

(** ** The generic pipeline *)

Module AbstractIndexer.

(** The steps a concrete indexer overrides, and its [cancel], which an
    outside caller reaches through the indexer object. *)
Record Methods (Req : Type) := {
  prepareIndexCreationRequests : M (list IndexCreationRequest);
  prepareRequests : M (list Req);
  processRequest : Req → M IndexStats;
  cancel_override : M unit;
}.
Arguments prepareIndexCreationRequests {Req} _.
Arguments prepareRequests {Req} _.
Arguments processRequest {Req} _ _.
Arguments cancel_override {Req} _.

(** Modelled from the spec: [AbstractIndexer] (./abstract_indexer) is not
    among the sources.  Section 4.2: the cancellation flag, read by
    [isCancelled]. *)
Definition isCancelled : M bool := λ s, (Ok (cancelled s), s).

(** Modelled from the spec: section 4.2, [cancel] sets the cancellation
    flag. *)
Definition cancel : M unit := modify (set_cancelled true).

(** The three counters, all zero. *)
Definition zeroStats : IndexStats :=
  <[File := 0]> (<[Reference := 0]> (<[Symbol := 0]> ∅)).

(** Modelled from the spec: section 4.2, step 3, merging an increment into
    the run-level statistics: the counter-wise sum. *)
Definition mergeStats (a b : IndexStats) : IndexStats :=
  union_with (λ x y, Some (x + y)) a b.

(** [stats.get(k)], with an absent counter read as zero. *)
Definition count (k : IndexStatsKey) (stats : IndexStats) : nat :=
  default 0 (stats !! k).

(** Modelled from the spec: section 4.2, step 3, the report of
    itemsProcessed / totalItems to the optional progress reporter;
    [reporter] tells whether one was passed to [start]. *)
Definition report (reporter : bool) (processed total : nat) : M unit :=
  if reporter then modify (add_progress (processed, total)) else mret tt.

Section Pipeline.

Context {Req : Type} (m : Methods Req) (c : EsClient).

(** Modelled from the spec: section 5, cancellation is cooperative and
    checked between work items.  A call of [cancel()] from outside the run
    lands between two of its steps; [cancelAfter = Some k] places it after
    [k] items have been processed. *)
Definition outsideCancel (cancelAfter : option nat) (processed : nat) : M unit :=
  if decide (cancelAfter = Some processed) then cancel_override m else mret tt.

(** Modelled from the spec: section 4.2, step 3 (Processing) and step 4.
    Items are taken in enumeration order; the flag is checked before each;
    a failing item is logged and counts as zero results. *)
Fixpoint processAll (cancelAfter : option nat) (reporter : bool)
    (total processed : nat) (reqs : list Req) (stats : IndexStats) : M IndexStats :=
  outsideCancel cancelAfter processed ;;
  match reqs with
  | [] => modify (set_runState Completed) ;; mret stats
  | req :: rest =>
      stop ← isCancelled;
      if (stop : bool) then modify (set_runState Cancelled) ;; mret stats
      else
        inc ← try_catch (processRequest m req)
                (λ error, Logger.error ("Process index request error. " +:+ error) ;;
                          mret (∅ : IndexStats));
        report reporter (S processed) total ;;
        processAll cancelAfter reporter total (S processed) rest (mergeStats stats inc)
  end.

(** Modelled from the spec: section 4.2, step 1.  The creation
    specifications of the concrete indexer are applied; a failure is
    surfaced and the run is Failed. *)
Definition prepareIndex : M unit :=
  try_catch
    (specs ← prepareIndexCreationRequests m;
     for_of specs (Client.create c))
    (λ error, modify (set_runState Failed) ;; throw error).

(** Modelled from the spec: section 4.2, step 2.  Enumeration failure is
    fatal to the run: it is surfaced and the run is Failed. *)
Definition enumerate : M (list Req) :=
  try_catch (prepareRequests m)
    (λ error, modify (set_runState Failed) ;; throw error).

(** Modelled from the spec: section 4.2, [start]: PreparingIndices, then
    EnumeratingRequests, then Processing.  The buffer belongs to the concrete
    indexer, so the final flush of step 4 is in [LspIndexer.start]. *)
Definition start (cancelAfter : option nat) (reporter : bool) : M IndexStats :=
  modify (set_runState PreparingIndices) ;;
  prepareIndex ;;
  modify (set_runState EnumeratingRequests) ;;
  reqs ← enumerate;
  modify (set_runState Processing) ;;
  processAll cancelAfter reporter (List.length reqs) 0 reqs zeroStats.

End Pipeline.

End AbstractIndexer.

(** ** The LSP indexer *)

Module LspIndexer.

(** [symbolNames.add(n)] on a [Set<string>] kept in insertion order, which is
    the order [Array.from] later reads it in. *)
Definition set_add (n : string) (names : list string) : list string :=
  if decide (n ∈ names) then names else names ++ [n].

(** A loop that carries a local variable. *)
Fixpoint for_of_with {A B} (xs : list A) (acc : B) (body : A → B → M B) : M B :=
  match xs with
  | [] => mret acc
  | x :: rest => acc' ← body x acc; for_of_with rest acc' body
  end.

(** JavaScript truthiness of [lang && supportLanguage(lang)]. *)
Definition supported (sl : string → bool) (lang : option string) : bool :=
  match lang with
  | None => false
  | Some l => if decide (l = "") then false else sl l
  end.

Section Indexer.

Context (W : World) (ix : LspIndexerConfig).

(** lsp_indexer.ts, lines 70-76. *)
Definition prepareIndexCreationRequests : M (list IndexCreationRequest) :=
  mret [ getDocumentIndexCreationRequest W (repoUri ix);
         getReferenceIndexCreationRequest W (repoUri ix);
         getSymbolIndexCreationRequest W (repoUri ix) ].

(** The [filter] callback, lines 96-99. *)
Definition keepFile (filePath : string) : bool :=
  supported (supportLanguage (lspService ix)) (detectLanguageByFilename W filePath).

(** The request built in the [map] callback, lines 100-108. *)
Definition mkRequest (ws : Workspace) (filePath : string) : LspIndexRequest :=
  {| req_repoUri := repoUri ix;
     req_localRepoPath := workdir ws;
     req_filePath := filePath;
     req_revision := workspaceRevision ws |}.

(** lsp_indexer.ts, lines 78-114. *)
Definition prepareRequests : M (list LspIndexRequest) :=
  try_catch
    (ws ← await (openWorkspace (lspService ix) (repoUri ix) "head");
     tree ← await (fileTree W (repoPath (options ix)) (repoUri ix) "" "HEAD"
                     0%N MAX_SAFE_INTEGER false MAX_SAFE_INTEGER);
     mret (mkRequest ws <$> List.filter keepFile (getAllFiles W tree)))
    (λ error,
       Logger.error "Prepare lsp indexing requests error." ;;
       Logger.error error ;;
       throw error).

(** The three delete-by-query requests of [cleanIndex]. *)
Definition cleanSymbols (repoUri : RepositoryUri) : DeleteByQueryParams :=
  {| dq_index := SymbolIndexName W repoUri; dq_query := MatchAll |}.

Definition cleanReferences (repoUri : RepositoryUri) : DeleteByQueryParams :=
  {| dq_index := ReferenceIndexName W repoUri; dq_query := MatchAll |}.

Definition cleanDocuments (repoUri : RepositoryUri) : DeleteByQueryParams :=
  {| dq_index := DocumentIndexName W repoUri;
     dq_query := BoolMustNot
       [ Exists (RepositoryReservedField W);
         Exists (RepositoryGitStatusReservedField W);
         Exists (RepositoryLspIndexStatusReservedField W);
         Exists (RepositoryDeleteStatusReservedField W) ] |}.

(** lsp_indexer.ts, lines 116-187. *)
Definition cleanIndex (repoUri : RepositoryUri) : M unit :=
  try_catch
    (Client.deleteByQuery (client ix) (cleanSymbols repoUri) ;;
     Logger.info ("Clean up symbols for " +:+ repoUri +:+ " done."))
    (λ error,
       Logger.error ("Clean up symbols for " +:+ repoUri +:+ " error.") ;;
       Logger.error error) ;;
  try_catch
    (Client.deleteByQuery (client ix) (cleanReferences repoUri) ;;
     Logger.info ("Clean up references for " +:+ repoUri +:+ " done."))
    (λ error,
       Logger.error ("Clean up references for " +:+ repoUri +:+ " error.") ;;
       Logger.error error) ;;
  try_catch
    (Client.deleteByQuery (client ix) (cleanDocuments repoUri) ;;
     Logger.info ("Clean up documents for " +:+ repoUri +:+ " done."))
    (λ error,
       Logger.error ("Clean up documents for " +:+ repoUri +:+ " error.") ;;
       Logger.error error).

(** The two local variables the [try] block of [processRequest] updates. *)
Definition Locals : Type := IndexStats * list string.

(** The loop over the symbols, lines 208-211. *)
Definition indexSymbols (repoUri : RepositoryUri) (syms : list DetailSymbolInformation)
    (symbolNames : list string) : M (list string) :=
  for_of_with syms symbolNames (λ symbol names,
    BatchIndexHelper.index (SymbolIndexName W repoUri) (PSymbol symbol) ;;
    mret (set_add (name (symbolInformation symbol)) names)).

(** The loop over the references, lines 214-216. *)
Definition indexReferences (repoUri : RepositoryUri) (refs : list ReferenceInfo) : M unit :=
  for_of refs (λ ref,
    BatchIndexHelper.index (ReferenceIndexName W repoUri) (PReference ref)).

(** The [try { ... } catch] block, lines 198-224.  Nothing in it can throw
    after the response has arrived, so the locals it leaves are those of the
    last statement reached. *)
Definition indexSymbolsAndReferences (repoUri lspDocUri : string) (stats : IndexStats)
    (symbolNames : list string) : M Locals :=
  try_catch
    (response ← await (sendRequest (lspService ix) "textDocument/full" lspDocUri
                         (enableGlobalReference (options ix)));
     match response with
     | Some {| result := first :: _ |} =>
         symbolNames ← indexSymbols repoUri (symbols first) symbolNames;
         let stats := <[Symbol := List.length (symbols first)]> stats in
         indexReferences repoUri (references first) ;;
         let stats := <[Reference := List.length (references first)]> stats in
         mret (stats, symbolNames)
     | _ =>
         Logger.debug "Empty response from lsp server. Skip symbols and references indexing." ;;
         mret (stats, symbolNames)
     end)
    (λ error,
       Logger.error "Index symbols or references error. Skip to file indexing." ;;
       Logger.error error ;;
       mret (stats, symbolNames)).

(** The part of [processRequest] after the [try] block, lines 226-246: read
    the file (or the link) and index the document. *)
Definition indexFile (request : LspIndexRequest) (locals : Locals) : M IndexStats :=
  let '(stats, symbolNames) := locals in
  let localFilePath := req_localRepoPath request +:+ req_filePath request in
  stat ← await (lstat W localFilePath);
  content ← (if isSymbolicLink stat
             then await (readlink W localFilePath)
             else await (readFile W localFilePath));
  let language := detectLanguage W (req_filePath request) content in
  let body := {| doc_repoUri := req_repoUri request;
                 doc_path := req_filePath request;
                 doc_content := content;
                 doc_language := language;
                 doc_qnames := symbolNames |} in
  BatchIndexHelper.index (DocumentIndexName W (req_repoUri request)) (PDocument body) ;;
  mret (<[File := 1]> stats).

(** lsp_indexer.ts, lines 189-247. *)
Definition processRequest (request : LspIndexRequest) : M IndexStats :=
  let stats : IndexStats := <[File := 0]> (<[Reference := 0]> (<[Symbol := 0]> ∅)) in
  let lspDocUri := toCanonicalUrl W (req_repoUri request) (req_revision request)
                     (req_filePath request) "git:" in
  let symbolNames : list string := [] in
  locals ← indexSymbolsAndReferences (req_repoUri request) lspDocUri stats symbolNames;
  indexFile request locals.

(** lsp_indexer.ts, lines 65-68. *)
Definition cancel : M unit :=
  BatchIndexHelper.cancel ;;
  AbstractIndexer.cancel.

(** The overrides, as the inherited [start] sees them. *)
Definition methods : AbstractIndexer.Methods LspIndexRequest :=
  {| AbstractIndexer.prepareIndexCreationRequests := prepareIndexCreationRequests;
     AbstractIndexer.prepareRequests := prepareRequests;
     AbstractIndexer.processRequest := processRequest;
     AbstractIndexer.cancel_override := cancel |}.

(** lsp_indexer.ts, lines 54-63.  [start]: the inherited run, then in
    [finally] the flush of whatever is still buffered, unless the run was
    cancelled.  [cancelAfter] is when, if ever, an outside caller cancels;
    [progressReporter] tells whether a reporter was passed. *)
Definition start (cancelAfter : option nat) (progressReporter : bool) : M IndexStats :=
  try_finally
    (AbstractIndexer.start methods (client ix) cancelAfter progressReporter)
    (stop ← AbstractIndexer.isCancelled;
     if negb stop then BatchIndexHelper.flush else mret tt).

End Indexer.

End LspIndexer.

(** ** Vocabulary of the statements *)

(** The calls the batch helper has received so far. *)
Definition received_calls (s : State) : list HelperCall :=
  received (batchIndexHelper s).

Definition is_index_call (c : HelperCall) : bool :=
  match c with CallIndex _ _ => true | _ => false end.

Definition is_flush_call (c : HelperCall) : bool :=
  match c with CallFlush => true | _ => false end.

Definition is_document_write (c : HelperCall) : bool :=
  match c with CallIndex _ (PDocument _) => true | _ => false end.

(** The helper after a sequence of [index] calls. *)
Definition after_index (writes : list (string * Payload))
    (h : BatchIndexHelperState) : BatchIndexHelperState :=
  foldl (λ h w, BatchIndexHelper.index_step w.1 w.2 h) h writes.

(** The entry a write leaves in the batch. *)
Definition entryOf (w : string * Payload) : BatchEntry :=
  {| destinationCollection := w.1; payload := w.2 |}.

(** The helper accepts [n] more writes without sending anything: it is not
    cancelled and stays below its size threshold. *)
Definition roomFor (n : nat) (h : BatchIndexHelperState) : Prop :=
  helper_cancelled h = false ∧ (List.length (batch h) + n < batchSize h)%nat.

Definition add_logs (entries : list LogEntry) (s : State) : State :=
  foldl (λ s e, add_log e s) s entries.

(** A state at construction time: a new helper, nothing cancelled, nothing
    logged, the run not yet started. *)
Definition initialState (size : nat) (backend : EsState) : State :=
  {| batchIndexHelper := BatchIndexHelper.new size; cancelled := false; es := backend;
     log := []; runState := Created; progress := [] |}.

(** The documents currently stored in a collection. *)
Definition stored (collection : string) (s : State) : list EsDoc :=
  default [] (indices (es s) !! collection).

Section Vocabulary.

Context (W : World) (ix : LspIndexerConfig).

(** What the file-reading statements of [processRequest] yield for a path. *)
Definition readLocalFile (path : string) : Result string :=
  match lstat W path with
  | Ok stat => if isSymbolicLink stat then readlink W path else readFile W path
  | Throw e => Throw e
  end.

Definition localFilePath (request : LspIndexRequest) : string :=
  req_localRepoPath request +:+ req_filePath request.

(** The answer of the language server to the request [processRequest] sends. *)
Definition analysis (request : LspIndexRequest) : Result (option ResponseMessage) :=
  sendRequest (lspService ix) "textDocument/full"
    (toCanonicalUrl W (req_repoUri request) (req_revision request)
       (req_filePath request) "git:")
    (enableGlobalReference (options ix)).

Definition symbolWrites (uri : RepositoryUri) (syms : list DetailSymbolInformation)
    : list (string * Payload) :=
  (λ sym, (SymbolIndexName W uri, PSymbol sym)) <$> syms.

Definition referenceWrites (uri : RepositoryUri) (refs : list ReferenceInfo)
    : list (string * Payload) :=
  (λ ref, (ReferenceIndexName W uri, PReference ref)) <$> refs.

Definition collectNames (syms : list DetailSymbolInformation) (names : list string)
    : list string :=
  foldl (λ names sym, LspIndexer.set_add (name (symbolInformation sym)) names) names syms.

(** The writes of the [try] block for a given answer. *)
Definition analysisWrites (request : LspIndexRequest) : list (string * Payload) :=
  match analysis request with
  | Ok (Some {| result := first :: _ |}) =>
      symbolWrites (req_repoUri request) (symbols first)
      ++ referenceWrites (req_repoUri request) (references first)
  | _ => []
  end.

(** The document [processRequest] assembles. *)
Definition documentOf (request : LspIndexRequest) (content : string)
    (names : list string) : Document :=
  {| doc_repoUri := req_repoUri request;
     doc_path := req_filePath request;
     doc_content := content;
     doc_language := detectLanguage W (req_filePath request) content;
     doc_qnames := names |}.

Definition documentWrite (request : LspIndexRequest) (content : string)
    (names : list string) : string * Payload :=
  (DocumentIndexName W (req_repoUri request),
   PDocument (documentOf request content names)).

(** The log lines of the [try] block for a given answer. *)
Definition analysisLogs (request : LspIndexRequest) : list LogEntry :=
  match analysis request with
  | Ok (Some {| result := _ :: _ |}) => []
  | Ok _ =>
      [(LDebug, "Empty response from lsp server. Skip symbols and references indexing.")]
  | Throw e =>
      [(LError, "Index symbols or references error. Skip to file indexing."); (LError, e)]
  end.

(** The counters and the name set the [try] block leaves behind. *)
Definition analysisLocals (request : LspIndexRequest) : LspIndexer.Locals :=
  match analysis request with
  | Ok (Some {| result := first :: _ |}) =>
      (<[Reference := List.length (references first)]>
         (<[Symbol := List.length (symbols first)]> AbstractIndexer.zeroStats),
       collectNames (symbols first) [])
  | _ => (AbstractIndexer.zeroStats, [])
  end.

(** The state after the [try] block. *)
Definition afterAnalysis (request : LspIndexRequest) (s : State) : State :=
  set_helper (after_index (analysisWrites request)) (add_logs (analysisLogs request) s).

(** The analysis request errors, or its answer is empty. *)
Definition analysisFailedOrEmpty (request : LspIndexRequest) : Prop :=
  (∃ e, analysis request = Throw e)
  ∨ analysis request = Ok None
  ∨ analysis request = Ok (Some {| result := [] |}).

(** The three ways in which reading the local file can fail. *)
Definition fileReadFails (path : string) (e : Error) : Prop :=
  lstat W path = Throw e
  ∨ (∃ stat, lstat W path = Ok stat ∧ isSymbolicLink stat = true
             ∧ readlink W path = Throw e)
  ∨ (∃ stat, lstat W path = Ok stat ∧ isSymbolicLink stat = false
             ∧ readFile W path = Throw e).

(** A document carries a reserved field when it has a value for one of the
    four repository-level marker fields. *)
Definition carriesReservedField (d : EsDoc) : bool :=
  bool_decide (is_Some (d !! RepositoryReservedField W))
  || bool_decide (is_Some (d !! RepositoryGitStatusReservedField W))
  || bool_decide (is_Some (d !! RepositoryLspIndexStatusReservedField W))
  || bool_decide (is_Some (d !! RepositoryDeleteStatusReservedField W)).

End Vocabulary.

(** Enumeration fails: the workspace cannot be opened, or the walk of the
    file tree throws. *)
Definition enumerationFails (W : World) (ix : LspIndexerConfig) (e : Error) : Prop :=
  openWorkspace (lspService ix) (repoUri ix) "head" = Throw e
  ∨ (∃ ws, openWorkspace (lspService ix) (repoUri ix) "head" = Ok ws
           ∧ fileTree W (repoPath (options ix)) (repoUri ix) "" "HEAD"
               0%N MAX_SAFE_INTEGER false MAX_SAFE_INTEGER = Throw e).

(** What one request adds to the statistics of a run: the counters
    [processRequest] returns, or nothing when it throws. *)
Definition itemStats (W : World) (ix : LspIndexerConfig) (request : LspIndexRequest)
    : IndexStats :=
  match readLocalFile W (localFilePath request) with
  | Ok _ => <[File := 1]> (analysisLocals W ix request).1
  | Throw _ => ∅
  end.

(** Enumeration as the specification words it: the requests are those of
    the working copy opened at the revision the run was started for. *)
Definition enumeratesTargetRevision (W : World) (ix : LspIndexerConfig) : Prop :=
  ∀ (s : State) (ws : Workspace) (tree : FileTree W),
    openWorkspace (lspService ix) (repoUri ix) (revision ix) = Ok ws →
    fileTree W (repoPath (options ix)) (repoUri ix) "" "HEAD"
      0%N MAX_SAFE_INTEGER false MAX_SAFE_INTEGER = Ok tree →
    (LspIndexer.prepareRequests W ix s).1
    = Ok ((λ filePath, {| req_repoUri := repoUri ix;
                          req_localRepoPath := workdir ws;
                          req_filePath := filePath;
                          req_revision := workspaceRevision ws |})
          <$> List.filter (LspIndexer.keepFile W ix) (getAllFiles W tree)).

(** What one [deleteByQuery] call does to the backend. *)
Definition deleteEffect (c : EsClient) (params : DeleteByQueryParams) (e : EsState) : EsState :=
  match deleteByQuery_rejects c params with
  | Some _ => Client.record_delete params e
  | None => Client.apply_delete params (Client.record_delete params e)
  end.

(** ** Invariants *)

(** [m] keeps the invariant [I], however it ends. *)
Definition preserves {A} (I : State → Prop) (m : M A) : Prop :=
  ∀ s, I s → I (m s).2.

(** An invariant that does not look at the log, the run state, the progress
    reports or the backend. *)
Record Stable (I : State → Prop) : Prop := {
  stable_log : ∀ e s, I s → I (add_log e s);
  stable_runState : ∀ r s, I s → I (set_runState r s);
  stable_progress : ∀ p s, I s → I (add_progress p s);
  stable_es : ∀ f s, I s → I (set_es f s);
}.

(** During a run no [flush()] call has reached the helper yet, and once the
    run is cancelled the helper is cancelled too and holds nothing. *)
Definition bufferInvariant (s : State) : Prop :=
  filter is_flush_call (received_calls s) = []
  ∧ (cancelled s = true →
     helper_cancelled (batchIndexHelper s) = true
     ∧ batch (batchIndexHelper s) = []
     ∧ CallCancel ∈ received_calls s).

(** An invariant on the helper and the flag alone. *)
Definition sameBuffer (h : BatchIndexHelperState) (flag : bool) (s : State) : Prop :=
  batchIndexHelper s = h ∧ cancelled s = flag.

(** The same world with another [readFile]. *)
Definition withReadFile (rf : string → Result string) (W : World) : World :=
  {| lstat := lstat W; readlink := readlink W; readFile := rf;
     toCanonicalUrl := toCanonicalUrl W; detectLanguage := detectLanguage W;
     detectLanguageByFilename := detectLanguageByFilename W;
     FileTree := FileTree W; fileTree := fileTree W; getAllFiles := getAllFiles W;
     SymbolIndexName := SymbolIndexName W;
     ReferenceIndexName := ReferenceIndexName W;
     DocumentIndexName := DocumentIndexName W;
     RepositoryReservedField := RepositoryReservedField W;
     RepositoryGitStatusReservedField := RepositoryGitStatusReservedField W;
     RepositoryLspIndexStatusReservedField := RepositoryLspIndexStatusReservedField W;
     RepositoryDeleteStatusReservedField := RepositoryDeleteStatusReservedField W;
     getDocumentIndexCreationRequest := getDocumentIndexCreationRequest W;
     getReferenceIndexCreationRequest := getReferenceIndexCreationRequest W;
     getSymbolIndexCreationRequest := getSymbolIndexCreationRequest W |}.

(** The same indexer, talking to a language server that answers every
    request with [answer]. *)
Definition withAnswer (answer : Result (option ResponseMessage))
    (ix : LspIndexerConfig) : LspIndexerConfig :=
  {| repoUri := repoUri ix; revision := revision ix;
     lspService := {| sendRequest _ _ _ := answer;
                      supportLanguage := supportLanguage (lspService ix);
                      openWorkspace := openWorkspace (lspService ix) |};
     options := options ix; client := client ix |}.

(** The same indexer, constructed for another revision. *)
Definition withRevision (rev : string) (ix : LspIndexerConfig) : LspIndexerConfig :=
  {| repoUri := repoUri ix; revision := rev; lspService := lspService ix;
     options := options ix; client := client ix |}.

Definition mkStats (nSymbol nReference nFile : nat) : IndexStats :=
  <[File := nFile]> (<[Reference := nReference]> (<[Symbol := nSymbol]> ∅)).

(** ** A small repository, used to run the definitions *)

Module Scenario.

Definition uri : RepositoryUri := "github.com/elastic/demo".

Definition sym (n : string) : DetailSymbolInformation :=
  {| symbolInformation := {| name := n; kind := 12; location := "a.ts" |};
     qname := "demo." +:+ n |}.

Definition use (n : string) : ReferenceInfo :=
  {| ref_category := 1; ref_location := "a.ts"; ref_symbol := n |}.

Definition firstResult : Full :=
  {| symbols := [sym "f"; sym "g"; sym "f"]; references := [use "g"] |}.

Definition secondResult : Full :=
  {| symbols := [sym "h"]; references := [use "h"; use "h"] |}.

(** The language server answers for a.ts with two result elements, fails
    for b.ts, has nothing for link.ts, and answers for locked.ts, a file that
    cannot be read. *)
Definition lsp : LspService :=
  {| sendRequest _ docUri _ :=
       if decide (docUri = "git://github.com/elastic/demo/blob/r2/a.ts")
       then Ok (Some {| result := [firstResult; secondResult] |})
       else if decide (docUri = "git://github.com/elastic/demo/blob/r2/b.ts")
       then Throw "request timed out"
       else if decide (docUri = "git://github.com/elastic/demo/blob/r2/link.ts")
       then Ok (Some {| result := [] |})
       else if decide (docUri = "git://github.com/elastic/demo/blob/r2/locked.ts")
       then Ok (Some {| result := [secondResult] |})
       else Ok None;
     supportLanguage lang := bool_decide (lang = "typescript");
     openWorkspace _ ref :=
       if decide (ref = "head")
       then Ok {| workdir := "/ws/head/"; workspaceRevision := "r2" |}
       else if decide (ref = "r1")
       then Ok {| workdir := "/ws/r1/"; workspaceRevision := "r1" |}
       else Throw "unknown revision" |}.

(** A language server whose workspace cannot be opened. *)
Definition lspWithoutWorkspace : LspService :=
  {| sendRequest := sendRequest lsp;
     supportLanguage := supportLanguage lsp;
     openWorkspace _ _ := Throw "workspace unavailable" |}.

Definition world : World :=
  {| lstat path :=
       if decide (path = "/ws/head/link.ts") then Ok {| isSymbolicLink := true |}
       else if decide (path ∈ ["/ws/head/a.ts"; "/ws/head/b.ts"; "/ws/head/locked.ts"])
       then Ok {| isSymbolicLink := false |}
       else Throw "ENOENT";
     readlink path :=
       if decide (path = "/ws/head/link.ts") then Ok "a.ts" else Throw "EINVAL";
     readFile path :=
       if decide (path ∈ ["/ws/head/a.ts"; "/ws/head/link.ts"])
       then Ok "export const f = g()"
       else if decide (path = "/ws/head/b.ts") then Ok "syntax error"
       else if decide (path = "/ws/head/locked.ts") then Throw "EACCES"
       else Throw "ENOENT";
     toCanonicalUrl repo rev file schema :=
       schema +:+ "//" +:+ repo +:+ "/blob/" +:+ rev +:+ "/" +:+ file;
     detectLanguage _ _ := "typescript";
     detectLanguageByFilename path :=
       if decide (path ∈ ["a.ts"; "b.ts"; "link.ts"; "locked.ts"]) then Some "typescript"
       else if decide (path = "README.md") then Some "markdown"
       else None;
     FileTree := list string;
     fileTree _ _ _ _ _ _ _ _ := Ok ["a.ts"; "README.md"; "b.ts"; "link.ts"; "Makefile"];
     getAllFiles tree := tree;
     SymbolIndexName repo := ".code-symbol-" +:+ repo;
     ReferenceIndexName repo := ".code-reference-" +:+ repo;
     DocumentIndexName repo := ".code-document-" +:+ repo;
     RepositoryReservedField := "repository";
     RepositoryGitStatusReservedField := "repository_git_status";
     RepositoryLspIndexStatusReservedField := "repository_lsp_index_status";
     RepositoryDeleteStatusReservedField := "repository_delete_status";
     getDocumentIndexCreationRequest repo := {| icr_index := ".code-document-" +:+ repo |};
     getReferenceIndexCreationRequest repo := {| icr_index := ".code-reference-" +:+ repo |};
     getSymbolIndexCreationRequest repo := {| icr_index := ".code-symbol-" +:+ repo |} |}.

(** A world whose file-tree walk fails. *)
Definition worldWithoutTree : World :=
  {| lstat := lstat world; readlink := readlink world; readFile := readFile world;
     toCanonicalUrl := toCanonicalUrl world; detectLanguage := detectLanguage world;
     detectLanguageByFilename := detectLanguageByFilename world;
     FileTree := list string;
     fileTree _ _ _ _ _ _ _ _ := Throw "object not found";
     getAllFiles tree := tree;
     SymbolIndexName := SymbolIndexName world;
     ReferenceIndexName := ReferenceIndexName world;
     DocumentIndexName := DocumentIndexName world;
     RepositoryReservedField := RepositoryReservedField world;
     RepositoryGitStatusReservedField := RepositoryGitStatusReservedField world;
     RepositoryLspIndexStatusReservedField := RepositoryLspIndexStatusReservedField world;
     RepositoryDeleteStatusReservedField := RepositoryDeleteStatusReservedField world;
     getDocumentIndexCreationRequest := getDocumentIndexCreationRequest world;
     getReferenceIndexCreationRequest := getReferenceIndexCreationRequest world;
     getSymbolIndexCreationRequest := getSymbolIndexCreationRequest world |}.

Definition healthyClient : EsClient :=
  {| deleteByQuery_rejects _ := None; create_rejects _ := None |}.

(** A backend that rejects the deletion in the references collection. *)
Definition flakyClient : EsClient :=
  {| deleteByQuery_rejects params :=
       if decide (dq_index params = ".code-reference-github.com/elastic/demo")
       then Some "es_rejected_execution_exception" else None;
     create_rejects _ := None |}.

Definition indexer (rev : string) (service : LspService) (c : EsClient) : LspIndexerConfig :=
  {| repoUri := uri; revision := rev; lspService := service;
     options := {| repoPath := "/repos"; enableGlobalReference := true |};
     client := c |}.

(** An indexer started for revision r1; 'head' resolves to r2. *)
Definition ix : LspIndexerConfig := indexer "r1" lsp healthyClient.

Definition request (path : string) : LspIndexRequest :=
  {| req_repoUri := uri; req_localRepoPath := "/ws/head/"; req_filePath := path;
     req_revision := "r2" |}.

Definition marker : EsDoc := {[ "repository" := "{uri: github.com/elastic/demo}" ]}.
Definition statusMarker : EsDoc := {[ "repository_lsp_index_status" := "{progress: 100}" ]}.
Definition fileDoc (path : string) : EsDoc :=
  {[ "repoUri" := uri; "path" := path; "content" := "..."; "language" := "typescript" ]}.

Definition backend : EsState :=
  {| indices :=
       {[ ".code-document-github.com/elastic/demo" :=
            [fileDoc "a.ts"; marker; fileDoc "b.ts"; statusMarker; fileDoc "link.ts"];
          ".code-symbol-github.com/elastic/demo" := [fileDoc "sym"];
          ".code-reference-github.com/elastic/demo" := [fileDoc "ref"] ]};
     deleteRequests := [] |}.

Definition fresh : State := initialState 1000 backend.

End Scenario.

(** ** Vocabulary for further properties of the indexer *)

(** A list without its repetitions, each element kept where it first
    occurs. *)
Fixpoint firstOccurrences (l : list string) : list string :=
  match l with
  | [] => []
  | x :: rest => x :: List.filter (λ y, negb (bool_decide (y = x))) (firstOccurrences rest)
  end.

(** The names of the symbols of a result element, as [processRequest] reads
    them. *)
Definition symbolNamesOf (first : Full) : list string :=
  (λ sym, name (symbolInformation sym)) <$> symbols first.

(** Whether one delete-by-query call leaves document [d] of collection [k]
    in place. *)
Definition deletionKeeps (c : EsClient) (params : DeleteByQueryParams)
    (k : string) (d : EsDoc) : bool :=
  match deleteByQuery_rejects c params with
  | Some _ => true
  | None => if decide (dq_index params = k) then negb (matches (dq_query params) d) else true
  end.

(** Whether the three deletions of [cleanIndex] leave document [d] of
    collection [k] in place. *)
Definition cleanIndexKeeps (W : World) (ix : LspIndexerConfig) (uri : RepositoryUri)
    (k : string) (d : EsDoc) : bool :=
  deletionKeeps (client ix) (LspIndexer.cleanSymbols W uri) k d
  && deletionKeeps (client ix) (LspIndexer.cleanReferences W uri) k d
  && deletionKeeps (client ix) (LspIndexer.cleanDocuments W uri) k d.

(** The local file of a request can be read. *)
Definition readable (W : World) (request : LspIndexRequest) : bool :=
  is_Ok (readLocalFile W (localFilePath request)).

(** ** Triggers (src/legacy/ui/public/embeddable/triggers/trigger.ts) *)

Module Triggers.

(** An action, as far as a trigger looks at it. *)
Record Action := {
  action_id : string;
  action_embeddableId : string;
  action_embeddableType : string;
}.

Record Embeddable := {
  embeddable_id : string;
  embeddable_type : string;
}.

(** Containers are passed to [getCompatibleActions] and not looked at. *)
Record Container := {
  container_id : string;
}.

Record TriggerSavedObjectAttributes := {
  attr_title : string;
  attr_description : string;
  attr_embeddableId : string;
  attr_embeddableType : string;
  attr_actions : string;
}.

Record TriggerSavedObject := {
  so_id : string;
  so_attributes : TriggerSavedObjectAttributes;
}.

(** The other shape the constructor accepts: [{ id, title }]. *)
Record IdAndTitle := {
  it_id : string;
  it_title : string;
}.

Record Trigger := {
  trigger_id : string;
  trigger_description : string;
  trigger_embeddableId : string;
  trigger_embeddableType : string;
  trigger_title : string;
  actions : list Action;
}.

(** [attributes !== undefined] *)
Definition isTriggerSavedObject (o : TriggerSavedObject + IdAndTitle) : bool :=
  match o with
  | inl _ => true
  | inr _ => false
  end.

(** The constructor, lines 40-51. *)
Definition new (o : TriggerSavedObject + IdAndTitle) : Trigger :=
  match o with
  | inl saved =>
      {| trigger_id := so_id saved;
         trigger_description := attr_description (so_attributes saved);
         trigger_embeddableId := attr_embeddableId (so_attributes saved);
         trigger_embeddableType := attr_embeddableType (so_attributes saved);
         trigger_title := attr_title (so_attributes saved);
         actions := [] |}
  | inr plain =>
      {| trigger_id := it_id plain;
         trigger_description := "";
         trigger_embeddableId := "";
         trigger_embeddableType := "";
         trigger_title := it_title plain;
         actions := [] |}
  end.

(** The callback of the [filter] in [getCompatibleActions], lines 60-72. *)
Definition keepsAction (embeddable : option Embeddable) (action : Action) : bool :=
  let remove :=
    match embeddable with
    | Some e =>
        if negb (bool_decide (action_embeddableId action = ""))
        then negb (bool_decide (action_embeddableId action = embeddable_id e))
        else if negb (bool_decide (action_embeddableType action = ""))
        then negb (bool_decide (action_embeddableType action = embeddable_type e))
        else false
    | None => false
    end in
  negb remove.

Definition getCompatibleActions (t : Trigger) (embeddable : option Embeddable)
    (container : Container) : list Action :=
  List.filter (keepsAction embeddable) (actions t).

Definition with_actions (l : list Action) (t : Trigger) : Trigger :=
  {| trigger_id := trigger_id t;
     trigger_description := trigger_description t;
     trigger_embeddableId := trigger_embeddableId t;
     trigger_embeddableType := trigger_embeddableType t;
     trigger_title := trigger_title t;
     actions := l |}.

(** [this.actions.push(action)] *)
Definition addAction (t : Trigger) (action : Action) : Trigger :=
  with_actions (actions t ++ [action]) t.

Definition getActions (t : Trigger) : list Action := actions t.

(** [!!this.actions.find(action => action.id === id)] *)
Definition containsAction (t : Trigger) (id : string) : bool :=
  match List.find (λ action, bool_decide (action_id action = id)) (actions t) with
  | Some _ => true
  | None => false
  end.

Definition removeAction (t : Trigger) (actionId : string) : Trigger :=
  with_actions
    (List.filter (λ action, negb (bool_decide (action_id action = actionId))) (actions t)) t.

(** [this.actions.map(action => action.id).join(';')] *)
Definition getSavedObjectAttributes (t : Trigger) : TriggerSavedObjectAttributes :=
  {| attr_title := trigger_title t;
     attr_description := trigger_description t;
     attr_embeddableId := trigger_embeddableId t;
     attr_embeddableType := trigger_embeddableType t;
     attr_actions := String.concat ";" (action_id <$> actions t) |}.

End Triggers.

(** ** The modal that picks the type of a new action (src/unnamed/part_000) *)

Module CreateNewActionModal.

(** An action factory, as far as the modal looks at it; [isSingleton] is
    the answer of [factory.isSingleton()]. *)
Record ActionFactory := {
  factory_id : string;
  factory_title : string;
  isSingleton : bool;
}.

Record SelectOption := {
  value : string;
  text : string;
}.

Record ModalState := {
  newFactoryType : string;
}.

(** [getActionFactoryOptions], lines 36-43; [factories] is
    [Object.values(actionFactoryRegistry.getFactories())]. *)
Definition getActionFactoryOptions (factories : list ActionFactory) : list SelectOption :=
  (λ factory, {| value := factory_id factory; text := factory_title factory |})
    <$> List.filter (λ factory, negb (isSingleton factory)) factories.

(** The constructor, lines 55-60: [getActionFactoryOptions()[0].value]
    throws a TypeError when there is no option. *)
Definition new (factories : list ActionFactory) : Result ModalState :=
  match getActionFactoryOptions factories with
  | first :: _ => Ok {| newFactoryType := value first |}
  | [] => Throw "TypeError: Cannot read property 'value' of undefined"
  end.

(** [changeFactoryType], lines 89-91. *)
Definition changeFactoryType (target_value : string) (st : ModalState) : ModalState :=
  {| newFactoryType := target_value |}.

End CreateNewActionModal.

(** ** The event editor
    (src/legacy/core_plugins/embeddable_action_editor/public/app/event_editor.tsx) *)

Module EventEditor.

(** [findActions], lines 162-178: what [this.actions] becomes, given the
    editor's [props.embeddable] and the actions [getActions()] resolved to. *)
Definition findActions (props_embeddable : option Triggers.Embeddable)
    (allActions : list Triggers.Action) : list Triggers.Action :=
  List.filter
    (λ action,
       let remove :=
         match props_embeddable with
         | Some e =>
             if negb (bool_decide (Triggers.action_embeddableId action = ""))
             then negb (bool_decide (Triggers.action_embeddableId action
                                     = Triggers.embeddable_id e))
             else if negb (bool_decide (Triggers.action_embeddableType action = ""))
             then negb (bool_decide (Triggers.action_embeddableType action
                                     = Triggers.embeddable_type e))
             else false
         | None => false
         end in
       negb remove)
    allActions.

End EventEditor.

(** ** More of the small repository *)

Module Scenario2.

(** The world of [Scenario], with a file tree that also lists locked.ts, a
    file that cannot be read, and ghost.ts, a file that is not there. *)
Definition world : World :=
  {| lstat := lstat Scenario.world; readlink := readlink Scenario.world;
     readFile := readFile Scenario.world;
     toCanonicalUrl := toCanonicalUrl Scenario.world;
     detectLanguage := detectLanguage Scenario.world;
     detectLanguageByFilename path :=
       if decide (path = "ghost.ts") then Some "typescript"
       else detectLanguageByFilename Scenario.world path;
     FileTree := list string;
     fileTree _ _ _ _ _ _ _ _ := Ok ["a.ts"; "locked.ts"; "b.ts"; "ghost.ts"; "link.ts"];
     getAllFiles tree := tree;
     SymbolIndexName := SymbolIndexName Scenario.world;
     ReferenceIndexName := ReferenceIndexName Scenario.world;
     DocumentIndexName := DocumentIndexName Scenario.world;
     RepositoryReservedField := RepositoryReservedField Scenario.world;
     RepositoryGitStatusReservedField := RepositoryGitStatusReservedField Scenario.world;
     RepositoryLspIndexStatusReservedField :=
       RepositoryLspIndexStatusReservedField Scenario.world;
     RepositoryDeleteStatusReservedField := RepositoryDeleteStatusReservedField Scenario.world;
     getDocumentIndexCreationRequest := getDocumentIndexCreationRequest Scenario.world;
     getReferenceIndexCreationRequest := getReferenceIndexCreationRequest Scenario.world;
     getSymbolIndexCreationRequest := getSymbolIndexCreationRequest Scenario.world |}.

Definition headWorkspace : Workspace :=
  {| workdir := "/ws/head/"; workspaceRevision := "r2" |}.

Definition open : Triggers.Action :=
  {| Triggers.action_id := "open"; Triggers.action_embeddableId := "";
     Triggers.action_embeddableType := "" |}.

Definition drill : Triggers.Action :=
  {| Triggers.action_id := "drill"; Triggers.action_embeddableId := "panel-1";
     Triggers.action_embeddableType := "map" |}.

Definition trigger : Triggers.Trigger :=
  Triggers.addAction
    (Triggers.new (inr {| Triggers.it_id := "CLICK"; Triggers.it_title := "On click" |}))
    open.

Definition factories : list CreateNewActionModal.ActionFactory :=
  [ {| CreateNewActionModal.factory_id := "APPLY_FILTER";
       CreateNewActionModal.factory_title := "Apply filter";
       CreateNewActionModal.isSingleton := true |};
    {| CreateNewActionModal.factory_id := "NAVIGATE";
       CreateNewActionModal.factory_title := "Navigate";
       CreateNewActionModal.isSingleton := false |} ].

End Scenario2.

(** * Properties *)

(** ** State transformers behind the monadic code *)

Lemma set_helper_add_logs f ls s :
  set_helper f (add_logs ls s) = add_logs ls (set_helper f s).
Proof.
  revert s. induction ls as [|e ls IH]; intros s; [done|].
  simpl. by rewrite IH.
Qed.

Lemma helper_set_helper f s : batchIndexHelper (set_helper f s) = f (batchIndexHelper s).
Proof. done. Qed.

Lemma helper_add_logs ls s : batchIndexHelper (add_logs ls s) = batchIndexHelper s.
Proof. revert s. induction ls as [|l ls IH]; intros s; [done|]. simpl. by rewrite IH. Qed.

Lemma cancelled_add_logs ls s : cancelled (add_logs ls s) = cancelled s.
Proof. revert s. induction ls as [|l ls IH]; intros s; [done|]. simpl. by rewrite IH. Qed.

Lemma after_index_app w1 w2 h :
  after_index (w1 ++ w2) h = after_index w2 (after_index w1 h).
Proof. unfold after_index. by rewrite foldl_app. Qed.

Lemma received_index_step c b h :
  received (BatchIndexHelper.index_step c b h) = received h ++ [CallIndex c b].
Proof.
  unfold BatchIndexHelper.index_step. simpl.
  destruct (helper_cancelled h); simpl; [done|].
  by case_decide.
Qed.

Lemma received_after_index ws h :
  received (after_index ws h) = received h ++ ((λ w, CallIndex w.1 w.2) <$> ws).
Proof.
  revert h. induction ws as [|w ws IH]; intros h; simpl.
  - by rewrite app_nil_r.
  - unfold after_index in *. simpl. rewrite IH, received_index_step.
    by rewrite <- app_assoc.
Qed.

Lemma batch_index_step c b h :
  roomFor 1 h →
  batch (BatchIndexHelper.index_step c b h) = batch h ++ [entryOf (c, b)]
  ∧ helper_cancelled (BatchIndexHelper.index_step c b h) = false
  ∧ batchSize (BatchIndexHelper.index_step c b h) = batchSize h
  ∧ bulks (BatchIndexHelper.index_step c b h) = bulks h.
Proof.
  intros [Hc Hroom]. unfold BatchIndexHelper.index_step. simpl. rewrite Hc. simpl.
  rewrite decide_False; [done|]. rewrite length_app. simpl. lia.
Qed.

(** With room in the helper, the writes are queued in order and nothing is
    sent. *)
Lemma batch_after_index ws h :
  roomFor (List.length ws) h →
  batch (after_index ws h) = batch h ++ (entryOf <$> ws)
  ∧ bulks (after_index ws h) = bulks h.
Proof.
  revert h. induction ws as [|[c b] ws IH]; intros h [Hc Hroom].
  - simpl. by rewrite app_nil_r.
  - simpl in Hroom.
    destruct (batch_index_step c b h) as (Hb & Hc' & Hsize & Hbulks).
    { split; [done|lia]. }
    destruct (IH (BatchIndexHelper.index_step c b h)) as [IHb IHbulks].
    { split; [done|]. rewrite Hb, Hsize, length_app. simpl. lia. }
    unfold after_index in *. simpl. rewrite IHb, IHbulks, Hb, Hbulks.
    by rewrite <- app_assoc.
Qed.

Lemma stats_after_counts n m :
  <[File := 1]> (<[Reference := m]> (<[Symbol := n]>
    (<[File := 0]> (<[Reference := 0]> (<[Symbol := 0]> (∅ : IndexStats))))))
  = mkStats n m 1.
Proof.
  apply map_eq. intros k. unfold mkStats.
  destruct k; by simplify_map_eq.
Qed.

Lemma stats_after_nothing :
  <[File := 1]> (<[File := 0]> (<[Reference := 0]> (<[Symbol := 0]> (∅ : IndexStats))))
  = mkStats 0 0 1.
Proof.
  apply map_eq. intros k. unfold mkStats.
  destruct k; by simplify_map_eq.
Qed.

Section Runs.

Context (W : World) (ix : LspIndexerConfig).

Lemma indexSymbols_run uri syms names s :
  LspIndexer.indexSymbols W uri syms names s
  = (Ok (collectNames syms names),
     set_helper (after_index (symbolWrites W uri syms)) s).
Proof.
  revert names s. induction syms as [|sym syms IH]; intros names s.
  - by destruct s.
  - unfold LspIndexer.indexSymbols in *. simpl.
    unfold mbind, M_bind at 1. simpl.
    rewrite IH. by destruct s.
Qed.

Lemma indexReferences_run uri refs s :
  LspIndexer.indexReferences W uri refs s
  = (Ok tt, set_helper (after_index (referenceWrites W uri refs)) s).
Proof.
  revert s. induction refs as [|ref refs IH]; intros s.
  - by destruct s.
  - unfold LspIndexer.indexReferences in *. simpl.
    unfold mbind, M_bind at 1. simpl.
    rewrite IH. by destruct s.
Qed.


Lemma indexFile_run request (stats : IndexStats) (names : list string) s :
  LspIndexer.indexFile W request (stats, names) s
  = match readLocalFile W (localFilePath request) with
    | Ok content =>
        (Ok (<[File := 1]> stats),
         set_helper (after_index [documentWrite W request content names]) s)
    | Throw e => (Throw e, s)
    end.
Proof.
  unfold LspIndexer.indexFile, readLocalFile, localFilePath.
  unfold mbind, M_bind, await. simpl.
  destruct (lstat W _) as [stat|e]; [|done].
  destruct (isSymbolicLink stat).
  - destruct (readlink W _); [by destruct s|done].
  - destruct (readFile W _); [by destruct s|done].
Qed.

Lemma tryBlock_run request s :
  LspIndexer.indexSymbolsAndReferences W ix (req_repoUri request)
    (toCanonicalUrl W (req_repoUri request) (req_revision request)
       (req_filePath request) "git:")
    AbstractIndexer.zeroStats [] s
  = (Ok (analysisLocals W ix request), afterAnalysis W ix request s).
Proof.
  unfold LspIndexer.indexSymbolsAndReferences, afterAnalysis, analysisLocals,
    analysisLogs, analysisWrites, analysis, try_catch.
  unfold mbind, M_bind at 1. unfold await at 1.
  destruct (sendRequest _ _ _ _) as [[[[|first rest]]|]|e]; simpl;
    try by destruct s.
  unfold mbind, M_bind. rewrite indexSymbols_run, indexReferences_run.
  unfold mret, M_ret. f_equal. destruct s. unfold set_helper. simpl.
  f_equal. symmetry. apply after_index_app.
Qed.

Lemma processRequest_run request s :
  LspIndexer.processRequest W ix request s
  = match readLocalFile W (localFilePath request) with
    | Ok content =>
        (Ok (<[File := 1]> (analysisLocals W ix request).1),
         set_helper
           (after_index [documentWrite W request content (analysisLocals W ix request).2])
           (afterAnalysis W ix request s))
    | Throw e => (Throw e, afterAnalysis W ix request s)
    end.
Proof.
  unfold LspIndexer.processRequest. unfold mbind, M_bind at 1.
  change (<[File:=0]> (<[Reference:=0]> (<[Symbol:=0]> ∅))) with AbstractIndexer.zeroStats.
  rewrite tryBlock_run.
  destruct (analysisLocals W ix request) as [stats names] eqn:E.
  by rewrite indexFile_run.
Qed.

Lemma fileReadFails_spec path e :
  fileReadFails W path e ↔ readLocalFile W path = Throw e.
Proof.
  unfold fileReadFails, readLocalFile. split.
  - intros [H|[(stat & H1 & H2 & H3)|(stat & H1 & H2 & H3)]]; rewrite ?H, ?H1, ?H2; done.
  - destruct (lstat W path) as [stat|e'] eqn:E; [|intros [= ->]; by left].
    destruct (isSymbolicLink stat) eqn:L; intros H; right; [left|right]; eauto.
Qed.

Lemma helper_afterAnalysis request s :
  batchIndexHelper (afterAnalysis W ix request s)
  = after_index (analysisWrites W ix request) (batchIndexHelper s).
Proof.
  unfold afterAnalysis. by rewrite helper_set_helper, helper_add_logs.
Qed.

Lemma received_afterAnalysis request s :
  received_calls (afterAnalysis W ix request s)
  = received_calls s ++ ((λ w, CallIndex w.1 w.2) <$> analysisWrites W ix request).
Proof.
  unfold received_calls. by rewrite helper_afterAnalysis, received_after_index.
Qed.

Lemma filter_fmap_none {A} (p : HelperCall → bool) (f : A → HelperCall) (l : list A) :
  (∀ x, p (f x) = false) → filter p (f <$> l) = [].
Proof.
  intros Hf. induction l as [|x l IH]; [done|].
  rewrite fmap_cons, filter_cons, decide_False; [done|].
  rewrite Hf. intros [].
Qed.

Lemma analysisWrites_no_document request :
  filter is_document_write ((λ w, CallIndex w.1 w.2) <$> analysisWrites W ix request) = [].
Proof.
  unfold analysisWrites.
  destruct (analysis W ix request) as [[[[|first rest]]|]|e]; try done.
  rewrite fmap_app, filter_app.
  unfold symbolWrites, referenceWrites. rewrite <- !list_fmap_compose.
  rewrite !filter_fmap_none; done.
Qed.

End Runs.

(** ** The name set *)

Lemma set_add_NoDup n names : NoDup names → NoDup (LspIndexer.set_add n names).
Proof.
  intros H. unfold LspIndexer.set_add. case_decide; [done|].
  apply NoDup_app. split_and!; [done| |apply NoDup_singleton].
  intros x Hx ->%list_elem_of_singleton. done.
Qed.

Lemma elem_of_set_add n m names :
  m ∈ LspIndexer.set_add n names ↔ m ∈ names ∨ m = n.
Proof.
  unfold LspIndexer.set_add. case_decide.
  - split; [by left|]. intros [?| ->]; done.
  - rewrite elem_of_app, list_elem_of_singleton. done.
Qed.

Lemma collectNames_NoDup syms names : NoDup names → NoDup (collectNames syms names).
Proof.
  revert names. induction syms as [|sym syms IH]; intros names H; [done|].
  simpl. apply IH. by apply set_add_NoDup.
Qed.

Lemma elem_of_collectNames syms names n :
  n ∈ collectNames syms names
  ↔ n ∈ names ∨ ∃ sym, sym ∈ syms ∧ name (symbolInformation sym) = n.
Proof.
  revert names. induction syms as [|sym syms IH]; intros names; simpl.
  - split; [by left|]. intros [?|(? & []%elem_of_nil & _)]. done.
  - rewrite IH, elem_of_set_add. split.
    + intros [[?| ->]|(sym' & ? & ?)]; [by left| |].
      * right. exists sym. split; [left|done].
      * right. exists sym'. split; [by right|done].
    + intros [?|(sym' & [->|?]%elem_of_cons & ?)]; [by left; left| |].
      * left. by right.
      * right. by exists sym'.
Qed.

(** ** The per-file step *)

Section ProcessRequest.

Context (W : World) (ix : LspIndexerConfig).

(** C6.  When the analysis request succeeds with a non-empty result whose
    first element carries symbols S and references R, [processRequest] hands
    the batch helper one write to the symbols collection per element of S,
    then one write to the references collection per element of R, whatever
    the file read does next.  When the local file can be read it then hands
    over one document and returns {Symbol: |S|, Reference: |R|, File: 1};
    the document's qnames are the names of the symbols of S, each once.
    When the helper has room (it is not cancelled and stays below its size
    threshold), these writes are what is added to its batch. *)
Theorem processRequest_indexes_analysis_result
    (request : LspIndexRequest) (s : State) (first : Full) (rest : list Full) :
  analysis W ix request = Ok (Some {| result := first :: rest |}) →
  ∃ names : list string,
    NoDup names
    ∧ (∀ n, n ∈ names ↔ ∃ sym, sym ∈ symbols first ∧ name (symbolInformation sym) = n)
    ∧ received_calls (LspIndexer.processRequest W ix request s).2
      = received_calls s
        ++ ((λ sym, CallIndex (SymbolIndexName W (req_repoUri request)) (PSymbol sym))
              <$> symbols first)
        ++ ((λ ref, CallIndex (ReferenceIndexName W (req_repoUri request)) (PReference ref))
              <$> references first)
        ++ match readLocalFile W (localFilePath request) with
           | Ok content =>
               [CallIndex (DocumentIndexName W (req_repoUri request))
                  (PDocument (documentOf W request content names))]
           | Throw _ => []
           end
    ∧ ∀ content : string,
        readLocalFile W (localFilePath request) = Ok content →
        ∃ s' : State,
          LspIndexer.processRequest W ix request s
          = (Ok (mkStats (List.length (symbols first)) (List.length (references first)) 1),
             s')
          ∧ batchIndexHelper s'
            = after_index
                (symbolWrites W (req_repoUri request) (symbols first)
                 ++ referenceWrites W (req_repoUri request) (references first)
                 ++ [documentWrite W request content names])
                (batchIndexHelper s)
          ∧ (roomFor (List.length (symbols first) + List.length (references first) + 1)
               (batchIndexHelper s) →
             batch (batchIndexHelper s')
             = batch (batchIndexHelper s)
               ++ (entryOf <$> symbolWrites W (req_repoUri request) (symbols first))
               ++ (entryOf <$> referenceWrites W (req_repoUri request) (references first))
               ++ [entryOf (documentWrite W request content names)]).
Proof.
  intros Hanalysis.
  assert (Hw : analysisWrites W ix request
               = symbolWrites W (req_repoUri request) (symbols first)
                 ++ referenceWrites W (req_repoUri request) (references first))
    by (unfold analysisWrites; by rewrite Hanalysis).
  assert (Hl : analysisLocals W ix request
               = (<[Reference := List.length (references first)]>
                    (<[Symbol := List.length (symbols first)]> AbstractIndexer.zeroStats),
                  collectNames (symbols first) []))
    by (unfold analysisLocals; by rewrite Hanalysis).
  exists (collectNames (symbols first) []). split_and!.
  - apply collectNames_NoDup, NoDup_nil_2.
  - intros n. rewrite elem_of_collectNames. split; [|by right].
    intros [[]%elem_of_nil|?]. done.
  - rewrite processRequest_run, Hl.
    destruct (readLocalFile W (localFilePath request)) as [content|e]; simpl.
    + unfold received_calls at 1. rewrite helper_set_helper, received_after_index.
      fold (received_calls (afterAnalysis W ix request s)).
      rewrite received_afterAnalysis, Hw. unfold symbolWrites, referenceWrites.
      rewrite fmap_app, <- !list_fmap_compose, <- !app_assoc. done.
    + rewrite received_afterAnalysis, Hw. unfold symbolWrites, referenceWrites.
      rewrite fmap_app, <- !list_fmap_compose, app_nil_r. done.
  - intros content Hread. rewrite processRequest_run, Hread, Hl. simpl.
    eexists. split_and!.
    + rewrite <- stats_after_counts. reflexivity.
    + rewrite helper_set_helper, helper_afterAnalysis, Hw.
      rewrite <- after_index_app, <- app_assoc. done.
    + intros Hroom. rewrite helper_set_helper, helper_afterAnalysis, Hw.
      rewrite <- after_index_app, <- app_assoc.
      destruct (batch_after_index
                  (symbolWrites W (req_repoUri request) (symbols first)
                   ++ referenceWrites W (req_repoUri request) (references first)
                   ++ [documentWrite W request content (collectNames (symbols first) [])])
                  (batchIndexHelper s)) as [-> _].
      { unfold symbolWrites, referenceWrites.
        rewrite !length_app, !length_fmap. simpl.
        by rewrite Nat.add_assoc. }
      by rewrite !fmap_app.
Qed.

(** C7.  For a request whose local path is a symbolic link, the document
    handed to the batch helper has as content the text [readlink] returns for
    the link; [readFile] is not consulted, so the bytes behind the link play
    no role.  For a path that is not a link, the content is what [readFile]
    returns. *)
Theorem processRequest_document_content
    (request : LspIndexRequest) (s : State) (stat : Stats) (text : string) :
  lstat W (localFilePath request) = Ok stat →
  (if isSymbolicLink stat
   then readlink W (localFilePath request) = Ok text
   else readFile W (localFilePath request) = Ok text) →
  ∃ (stats : IndexStats) (s' : State) (document : Document),
    LspIndexer.processRequest W ix request s = (Ok stats, s')
    ∧ last (received_calls s')
      = Some (CallIndex (DocumentIndexName W (req_repoUri request)) (PDocument document))
    ∧ filter is_document_write (received_calls s')
      = filter is_document_write (received_calls s)
        ++ [CallIndex (DocumentIndexName W (req_repoUri request)) (PDocument document)]
    ∧ doc_path document = req_filePath request
    ∧ doc_content document = text
    ∧ (isSymbolicLink stat = true →
       ∀ rf, LspIndexer.processRequest (withReadFile rf W) ix request s
             = LspIndexer.processRequest W ix request s).
Proof.
  intros Hstat Hread.
  assert (Hlocal : readLocalFile W (localFilePath request) = Ok text).
  { unfold readLocalFile. rewrite Hstat. by destruct (isSymbolicLink stat). }
  rewrite processRequest_run, Hlocal.
  eexists _, _, (documentOf W request text (analysisLocals W ix request).2).
  split_and!; [done| | |done|done|].
  3:{ intros Hlink rf. rewrite Hlink in Hread.
      rewrite !processRequest_run. unfold readLocalFile. simpl.
      rewrite Hstat, Hlink, Hread. reflexivity. }
  - unfold received_calls. rewrite helper_set_helper, received_after_index.
    simpl. by rewrite last_snoc.
  - unfold received_calls. rewrite helper_set_helper, received_after_index.
    fold (received_calls (afterAnalysis W ix request s)).
    rewrite received_afterAnalysis, !filter_app, analysisWrites_no_document.
    by rewrite app_nil_r.
Qed.

(** C9.  When reading the local file fails (in [lstat], [readlink] or
    [readFile]), [processRequest] throws that error: it returns no statistics
    and hands no document to the batch helper.  The symbol and reference
    writes made earlier in the call stay with the helper: its state is the
    one those [index] calls left, nothing is undone; with room in the helper
    they are still in its batch. *)
Theorem processRequest_read_failure
    (request : LspIndexRequest) (s : State) (e : Error) :
  fileReadFails W (localFilePath request) e →
  ∃ s' : State,
    LspIndexer.processRequest W ix request s = (Throw e, s')
    ∧ filter is_document_write (received_calls s')
      = filter is_document_write (received_calls s)
    ∧ received_calls s'
      = received_calls s ++ ((λ w, CallIndex w.1 w.2) <$> analysisWrites W ix request)
    ∧ batchIndexHelper s'
      = after_index (analysisWrites W ix request) (batchIndexHelper s)
    ∧ (roomFor (List.length (analysisWrites W ix request)) (batchIndexHelper s) →
       batch (batchIndexHelper s')
       = batch (batchIndexHelper s) ++ (entryOf <$> analysisWrites W ix request))
    ∧ ∀ first rest,
        analysis W ix request = Ok (Some {| result := first :: rest |}) →
        analysisWrites W ix request
        = symbolWrites W (req_repoUri request) (symbols first)
          ++ referenceWrites W (req_repoUri request) (references first).
Proof.
  intros Hfail%fileReadFails_spec.
  rewrite processRequest_run, Hfail.
  eexists. split_and!; [done| | | | |].
  - by rewrite received_afterAnalysis, filter_app, analysisWrites_no_document, app_nil_r.
  - apply received_afterAnalysis.
  - apply helper_afterAnalysis.
  - intros Hroom. rewrite helper_afterAnalysis.
    by destruct (batch_after_index _ _ Hroom) as [-> _].
  - intros first rest H. unfold analysisWrites. by rewrite H.
Qed.

(** C10.  When the result array of the answer has more than one element,
    [processRequest] behaves exactly as if the answer held the first element
    alone: what the later elements carry is neither handed to the batch
    helper nor counted. *)
Theorem processRequest_first_result_only
    (request : LspIndexRequest) (s : State) (first second : Full) (others : list Full) :
  analysis W ix request = Ok (Some {| result := first :: second :: others |}) →
  LspIndexer.processRequest W ix request s
  = LspIndexer.processRequest W (withAnswer (Ok (Some {| result := [first] |})) ix) request s
  ∧ received_calls (LspIndexer.processRequest W ix request s).2
    = received_calls s
      ++ ((λ w, CallIndex w.1 w.2)
            <$> symbolWrites W (req_repoUri request) (symbols first)
                ++ referenceWrites W (req_repoUri request) (references first))
      ++ match readLocalFile W (localFilePath request) with
         | Ok content =>
             [CallIndex (DocumentIndexName W (req_repoUri request))
                (PDocument (documentOf W request content (collectNames (symbols first) [])))]
         | Throw _ => []
         end
  ∧ ∀ stats, (LspIndexer.processRequest W ix request s).1 = Ok stats →
             stats = mkStats (List.length (symbols first)) (List.length (references first)) 1.
Proof.
  intros Hanalysis.
  assert (Hw : analysisWrites W ix request
               = symbolWrites W (req_repoUri request) (symbols first)
                 ++ referenceWrites W (req_repoUri request) (references first))
    by (unfold analysisWrites; by rewrite Hanalysis).
  assert (Hl : analysisLocals W ix request
               = (<[Reference := List.length (references first)]>
                    (<[Symbol := List.length (symbols first)]> AbstractIndexer.zeroStats),
                  collectNames (symbols first) []))
    by (unfold analysisLocals; by rewrite Hanalysis).
  split_and!.
  - rewrite !processRequest_run.
    unfold afterAnalysis, analysisLocals, analysisLogs, analysisWrites.
    rewrite Hanalysis. reflexivity.
  - rewrite processRequest_run.
    destruct (readLocalFile W (localFilePath request)) as [content|e]; simpl.
    + unfold received_calls at 1. rewrite helper_set_helper, received_after_index.
      fold (received_calls (afterAnalysis W ix request s)).
      rewrite received_afterAnalysis, Hw, Hl, <- app_assoc. done.
    + by rewrite received_afterAnalysis, Hw, app_nil_r.
  - intros stats. rewrite processRequest_run.
    destruct (readLocalFile W (localFilePath request)) as [content|e]; simpl; [|done].
    intros [= <-]. rewrite Hl. simpl. apply stats_after_counts.
Qed.

(** When the analysis errors or is empty, the [try] block leaves no write,
    the zero counters and the empty name set. *)
Lemma analysisFailedOrEmpty_nothing (request : LspIndexRequest) :
  analysisFailedOrEmpty W ix request →
  analysisWrites W ix request = []
  ∧ analysisLocals W ix request = (AbstractIndexer.zeroStats, []).
Proof.
  unfold analysisFailedOrEmpty, analysisWrites, analysisLocals.
  intros [[e ->]|[->| ->]]; done.
Qed.

End ProcessRequest.

(** ** Enumeration *)

Section PrepareRequests.

Context (W : World) (ix : LspIndexerConfig).

Lemma keepFile_spec (filePath : string) :
  LspIndexer.keepFile W ix filePath = true
  ↔ ∃ lang, detectLanguageByFilename W filePath = Some lang ∧ lang ≠ ""
            ∧ supportLanguage (lspService ix) lang = true.
Proof.
  unfold LspIndexer.keepFile, LspIndexer.supported.
  destruct (detectLanguageByFilename W filePath) as [lang|].
  - case_decide as Hl.
    + split; [done|]. intros (? & [= <-] & ? & _). done.
    + split; [intros; by exists lang|]. by intros (? & [= <-] & _ & ?).
  - split; [done|]. by intros (? & ? & _).
Qed.

Lemma prepareRequests_run (s : State) (ws : Workspace) (tree : FileTree W) :
  openWorkspace (lspService ix) (repoUri ix) "head" = Ok ws →
  fileTree W (repoPath (options ix)) (repoUri ix) "" "HEAD"
    0%N MAX_SAFE_INTEGER false MAX_SAFE_INTEGER = Ok tree →
  LspIndexer.prepareRequests W ix s
  = (Ok (LspIndexer.mkRequest ix ws
           <$> List.filter (LspIndexer.keepFile W ix) (getAllFiles W tree)), s).
Proof.
  intros Hws Htree.
  unfold LspIndexer.prepareRequests, try_catch.
  unfold mbind, M_bind, await. by rewrite Hws, Htree.
Qed.

(** C2, as the code has it.  Enumeration opens the working copy of the
    repository at the fixed ref 'head' and walks the file tree at 'HEAD'; the
    [revision] the indexer was constructed with is not consulted.  It keeps
    exactly the files whose filename-detected language exists (is a
    non-empty tag) and is supported by the language server, and emits, in
    tree order, one request per kept file, carrying the indexer's repoUri,
    the working copy's root as localRepoPath, the file's path, and the
    revision resolved by the opened working copy. *)
Theorem prepareRequests_enumerates_head (s : State) (ws : Workspace) (tree : FileTree W) :
  openWorkspace (lspService ix) (repoUri ix) "head" = Ok ws →
  fileTree W (repoPath (options ix)) (repoUri ix) "" "HEAD"
    0%N MAX_SAFE_INTEGER false MAX_SAFE_INTEGER = Ok tree →
  LspIndexer.prepareRequests W ix s
  = (Ok ((λ filePath, {| req_repoUri := repoUri ix;
                         req_localRepoPath := workdir ws;
                         req_filePath := filePath;
                         req_revision := workspaceRevision ws |})
         <$> List.filter (LspIndexer.keepFile W ix) (getAllFiles W tree)),
     s)
  ∧ (∀ filePath,
      LspIndexer.keepFile W ix filePath = true
      ↔ ∃ lang, detectLanguageByFilename W filePath = Some lang ∧ lang ≠ ""
                ∧ supportLanguage (lspService ix) lang = true)
  ∧ ∀ rev, LspIndexer.prepareRequests W (withRevision rev ix) s
           = LspIndexer.prepareRequests W ix s.
Proof.
  intros Hws Htree. split_and!; [|apply keepFile_spec|done].
  by rewrite (prepareRequests_run s ws tree Hws Htree).
Qed.

End PrepareRequests.

(** An indexer started for revision r1, while 'head' resolves to r2,
    enumerates the working copy of r2. *)
Lemma prepareRequests_ignores_revision :
  ¬ enumeratesTargetRevision Scenario.world
      (Scenario.indexer "r1" Scenario.lsp Scenario.healthyClient).
Proof.
  intros H.
  specialize (H Scenario.fresh
                {| workdir := "/ws/r1/"; workspaceRevision := "r1" |}
                ["a.ts"; "README.md"; "b.ts"; "link.ts"; "Makefile"]
                eq_refl eq_refl).
  vm_compute in H. discriminate H.
Qed.

Lemma prepareRequests_enumerates_head_witness :
  (LspIndexer.prepareRequests Scenario.world
     (Scenario.indexer "r1" Scenario.lsp Scenario.healthyClient) Scenario.fresh).1
  = Ok [Scenario.request "a.ts"; Scenario.request "b.ts"; Scenario.request "link.ts"].
Proof.
  destruct (prepareRequests_enumerates_head Scenario.world
              (Scenario.indexer "r1" Scenario.lsp Scenario.healthyClient)
              Scenario.fresh
              {| workdir := "/ws/head/"; workspaceRevision := "r2" |}
              ["a.ts"; "README.md"; "b.ts"; "link.ts"; "Makefile"]
              eq_refl eq_refl) as [-> _].
  reflexivity.
Defined.

(** ** Cleanup *)

Section CleanIndex.

Context (W : World) (ix : LspIndexerConfig).

Lemma filter_filter_same {A} (p : A → bool) (l : list A) :
  List.filter p (List.filter p l) = List.filter p l.
Proof.
  induction l as [|x l IH]; [done|]. simpl.
  destruct (p x) eqn:E; simpl; [rewrite E|]; by rewrite ?IH.
Qed.

Lemma cleanDocuments_matches (uri : RepositoryUri) (d : EsDoc) :
  matches (dq_query (LspIndexer.cleanDocuments W uri)) d = negb (carriesReservedField W d).
Proof.
  unfold carriesReservedField. simpl.
  repeat destruct (bool_decide _); done.
Qed.

(** C5.  Whatever the backend rejects, [cleanIndex] issues the three
    deletions, for the symbols, the references and the documents collection,
    in that order, and returns normally: no rejection reaches its caller,
    and the run state is left alone. *)
Theorem cleanIndex_attempts_every_deletion (uri : RepositoryUri) (s : State) :
  ∃ s' : State,
    LspIndexer.cleanIndex W ix uri s = (Ok tt, s')
    ∧ deleteRequests (es s')
      = deleteRequests (es s)
        ++ [LspIndexer.cleanSymbols W uri; LspIndexer.cleanReferences W uri;
            LspIndexer.cleanDocuments W uri]
    ∧ runState s' = runState s
    ∧ cancelled s' = cancelled s
    ∧ batchIndexHelper s' = batchIndexHelper s.
Proof.
  unfold LspIndexer.cleanIndex, try_catch, Client.deleteByQuery.
  unfold mbind, M_bind.
  destruct (deleteByQuery_rejects (client ix) (LspIndexer.cleanSymbols W uri));
    destruct (deleteByQuery_rejects (client ix) (LspIndexer.cleanReferences W uri));
    destruct (deleteByQuery_rejects (client ix) (LspIndexer.cleanDocuments W uri));
    simpl; eexists; (split; [reflexivity|]); simpl;
    rewrite <- ?app_assoc; done.
Qed.

Lemma cleanIndex_backend (uri : RepositoryUri) (s : State) :
  es (LspIndexer.cleanIndex W ix uri s).2
  = deleteEffect (client ix) (LspIndexer.cleanDocuments W uri)
      (deleteEffect (client ix) (LspIndexer.cleanReferences W uri)
         (deleteEffect (client ix) (LspIndexer.cleanSymbols W uri) (es s))).
Proof.
  unfold LspIndexer.cleanIndex, try_catch, Client.deleteByQuery, deleteEffect.
  unfold mbind, M_bind.
  destruct (deleteByQuery_rejects (client ix) (LspIndexer.cleanSymbols W uri));
    destruct (deleteByQuery_rejects (client ix) (LspIndexer.cleanReferences W uri));
    destruct (deleteByQuery_rejects (client ix) (LspIndexer.cleanDocuments W uri));
    reflexivity.
Qed.

Lemma deleteEffect_other (params : DeleteByQueryParams) (e : EsState) (collection : string) :
  dq_index params ≠ collection →
  indices (deleteEffect (client ix) params e) !! collection = indices e !! collection.
Proof.
  intros Hne. unfold deleteEffect.
  destruct (deleteByQuery_rejects (client ix) params); [done|].
  simpl. by rewrite lookup_alter_ne.
Qed.

Lemma deleteEffect_same (params : DeleteByQueryParams) (e : EsState) :
  default [] (indices (deleteEffect (client ix) params e) !! dq_index params)
  = match deleteByQuery_rejects (client ix) params with
    | Some _ => default [] (indices e !! dq_index params)
    | None => List.filter (λ d, negb (matches (dq_query params) d))
                (default [] (indices e !! dq_index params))
    end.
Proof.
  unfold deleteEffect.
  destruct (deleteByQuery_rejects (client ix) params); [done|].
  simpl. rewrite lookup_alter_eq.
  by destruct (indices e !! dq_index params).
Qed.

(** C4.  The deletion [cleanIndex] issues in the documents collection
    matches exactly the entries that carry none of the four reserved fields.
    So, the documents collection being distinct from the other two, after
    [cleanIndex] the entries carrying a reserved field are all still there,
    and when the backend carries the deletion out they are all that is
    left. *)
Theorem cleanIndex_keeps_marker_documents (uri : RepositoryUri) (s : State) :
  DocumentIndexName W uri ≠ SymbolIndexName W uri →
  DocumentIndexName W uri ≠ ReferenceIndexName W uri →
  (∀ d : EsDoc, matches (dq_query (LspIndexer.cleanDocuments W uri)) d = true
                ↔ carriesReservedField W d = false)
  ∧ stored (DocumentIndexName W uri) (LspIndexer.cleanIndex W ix uri s).2
    = match deleteByQuery_rejects (client ix) (LspIndexer.cleanDocuments W uri) with
      | Some _ => stored (DocumentIndexName W uri) s
      | None => List.filter (carriesReservedField W) (stored (DocumentIndexName W uri) s)
      end
  ∧ List.filter (carriesReservedField W)
      (stored (DocumentIndexName W uri) (LspIndexer.cleanIndex W ix uri s).2)
    = List.filter (carriesReservedField W) (stored (DocumentIndexName W uri) s).
Proof.
  intros Hsym Href.
  assert (Hstored :
    stored (DocumentIndexName W uri) (LspIndexer.cleanIndex W ix uri s).2
    = match deleteByQuery_rejects (client ix) (LspIndexer.cleanDocuments W uri) with
      | Some _ => stored (DocumentIndexName W uri) s
      | None => List.filter (carriesReservedField W) (stored (DocumentIndexName W uri) s)
      end).
  { unfold stored. rewrite cleanIndex_backend.
    change (DocumentIndexName W uri) with (dq_index (LspIndexer.cleanDocuments W uri)) at 1.
    rewrite deleteEffect_same. simpl dq_index.
    rewrite !deleteEffect_other by (simpl; congruence).
    destruct (deleteByQuery_rejects _ _); [done|].
    apply List.filter_ext. intros d.
    by rewrite cleanDocuments_matches, negb_involutive. }
  split_and!.
  - intros d. rewrite cleanDocuments_matches. by destruct (carriesReservedField W d).
  - done.
  - rewrite Hstored. destruct (deleteByQuery_rejects _ _); [done|].
    apply filter_filter_same.
Qed.

End CleanIndex.

(** ** Invariants of monadic code *)

Section Preservation.

Context (I : State → Prop).

Lemma preserves_ret {A} (a : A) : preserves I (mret a).
Proof. by intros s. Qed.

Lemma preserves_throw {A} (e : Error) : preserves I (throw e : M A).
Proof. by intros s. Qed.

Lemma preserves_await {A} (r : Result A) : preserves I (await r).
Proof. by intros s. Qed.

Lemma preserves_modify (f : State → State) :
  (∀ s, I s → I (f s)) → preserves I (modify f).
Proof. intros Hf s. apply Hf. Qed.

Lemma preserves_bind {A B} (m : M A) (f : A → M B) :
  preserves I m → (∀ a, preserves I (f a)) → preserves I (m ≫= f).
Proof.
  intros Hm Hf s Hs. specialize (Hm s Hs).
  unfold mbind, M_bind. destruct (m s) as [[a|e] s1]; simpl in *; [|done].
  by apply Hf.
Qed.

Lemma preserves_try_catch {A} (m : M A) (handler : Error → M A) :
  preserves I m → (∀ e, preserves I (handler e)) → preserves I (try_catch m handler).
Proof.
  intros Hm Hh s Hs. specialize (Hm s Hs).
  unfold try_catch. destruct (m s) as [[a|e] s1]; simpl in *; [done|].
  by apply Hh.
Qed.

Lemma preserves_try_finally {A} (m : M A) (fin : M unit) :
  preserves I m → preserves I fin → preserves I (try_finally m fin).
Proof.
  intros Hm Hf s Hs. specialize (Hm s Hs).
  unfold try_finally. destruct (m s) as [r s1]; simpl in *.
  specialize (Hf s1 Hm). by destruct (fin s1) as [[[]|e] s2].
Qed.

Lemma preserves_for_of {A} (xs : list A) (body : A → M unit) :
  (∀ x, preserves I (body x)) → preserves I (for_of xs body).
Proof.
  intros Hb. induction xs as [|x xs IH]; simpl.
  - apply preserves_ret.
  - apply preserves_bind; [apply Hb|]. by intros _.
Qed.

Lemma preserves_for_of_with {A B} (xs : list A) (acc : B) (body : A → B → M B) :
  (∀ x b, preserves I (body x b)) → preserves I (LspIndexer.for_of_with xs acc body).
Proof.
  intros Hb. revert acc. induction xs as [|x xs IH]; intros acc; simpl.
  - apply preserves_ret.
  - apply preserves_bind; [apply Hb|]. intros b. apply IH.
Qed.

Context (HI : Stable I).

Lemma preserves_log_debug msg : preserves I (Logger.debug msg).
Proof. apply preserves_modify. intros s. apply (stable_log I HI). Qed.

Lemma preserves_log_info msg : preserves I (Logger.info msg).
Proof. apply preserves_modify. intros s. apply (stable_log I HI). Qed.

Lemma preserves_log_error msg : preserves I (Logger.error msg).
Proof. apply preserves_modify. intros s. apply (stable_log I HI). Qed.

Lemma preserves_runState r : preserves I (modify (set_runState r)).
Proof. apply preserves_modify. intros s. apply (stable_runState I HI). Qed.

Lemma preserves_report reporter n total : preserves I (AbstractIndexer.report reporter n total).
Proof.
  destruct reporter; simpl; [|apply preserves_ret].
  apply preserves_modify. intros s. apply (stable_progress I HI).
Qed.

Lemma preserves_create c req : preserves I (Client.create c req).
Proof.
  intros s Hs. unfold Client.create.
  destruct (create_rejects c req); simpl; [done|]. by apply (stable_es I HI).
Qed.

(** The generic run keeps what its three steps and the outside [cancel]
    keep. *)
Lemma preserves_processAll {Req} (m : AbstractIndexer.Methods Req) cancelAfter reporter
    total processed reqs stats :
  (∀ r, preserves I (AbstractIndexer.processRequest m r)) →
  preserves I (AbstractIndexer.cancel_override m) →
  preserves I (AbstractIndexer.processAll m cancelAfter reporter total processed reqs stats).
Proof.
  intros Hp Hc. revert processed stats.
  induction reqs as [|req reqs IH]; intros processed stats; simpl.
  - apply preserves_bind.
    + unfold AbstractIndexer.outsideCancel. case_decide; [done|apply preserves_ret].
    + intros _. apply preserves_bind; [apply preserves_runState|].
      intros _. apply preserves_ret.
  - apply preserves_bind.
    { unfold AbstractIndexer.outsideCancel. case_decide; [done|apply preserves_ret]. }
    intros _. apply preserves_bind; [by intros s|].
    intros [|].
    { apply preserves_bind; [apply preserves_runState|]. intros _. apply preserves_ret. }
    apply preserves_bind.
    { apply preserves_try_catch; [apply Hp|].
      intros e. apply preserves_bind; [apply preserves_log_error|].
      intros _. apply preserves_ret. }
    intros inc. apply preserves_bind; [apply preserves_report|].
    intros _. apply IH.
Qed.

Lemma preserves_abstract_start {Req} (m : AbstractIndexer.Methods Req) c cancelAfter reporter :
  preserves I (AbstractIndexer.prepareIndexCreationRequests m) →
  preserves I (AbstractIndexer.prepareRequests m) →
  (∀ r, preserves I (AbstractIndexer.processRequest m r)) →
  preserves I (AbstractIndexer.cancel_override m) →
  preserves I (AbstractIndexer.start m c cancelAfter reporter).
Proof.
  intros Hi He Hp Hc.
  unfold AbstractIndexer.start, AbstractIndexer.prepareIndex, AbstractIndexer.enumerate.
  apply preserves_bind; [apply preserves_runState|]. intros _.
  apply preserves_bind.
  { apply preserves_try_catch.
    - apply preserves_bind; [done|]. intros specs.
      apply preserves_for_of. intros req. apply preserves_create.
    - intros e. apply preserves_bind; [apply preserves_runState|].
      intros _. apply preserves_throw. }
  intros _. apply preserves_bind; [apply preserves_runState|]. intros _.
  apply preserves_bind.
  { apply preserves_try_catch; [done|].
    intros e. apply preserves_bind; [apply preserves_runState|].
    intros _. apply preserves_throw. }
  intros reqs. apply preserves_bind; [apply preserves_runState|]. intros _.
  by apply preserves_processAll.
Qed.

End Preservation.

(** ** Teardown: the final flush *)

Lemma bufferInvariant_stable : Stable bufferInvariant.
Proof. split; intros ? s H; exact H. Qed.

Lemma bufferInvariant_index c b s :
  bufferInvariant s → bufferInvariant (set_helper (BatchIndexHelper.index_step c b) s).
Proof.
  intros [Hflush Hcancel]. split.
  - unfold received_calls. rewrite helper_set_helper, received_index_step.
    rewrite filter_app. fold (received_calls s). by rewrite Hflush.
  - intros Hc. destruct (Hcancel Hc) as (Hh & Hb & Hin).
    unfold received_calls. rewrite helper_set_helper, received_index_step.
    unfold BatchIndexHelper.index_step. simpl. rewrite Hh. simpl.
    split_and!; [done..|]. apply elem_of_app. by left.
Qed.

Lemma bufferInvariant_after_index ws s :
  bufferInvariant s → bufferInvariant (set_helper (after_index ws) s).
Proof.
  revert s. induction ws as [|w ws IH]; intros s H.
  - by destruct s.
  - apply (IH (set_helper (BatchIndexHelper.index_step w.1 w.2) s)).
    by apply bufferInvariant_index.
Qed.

Lemma bufferInvariant_add_logs ls s :
  bufferInvariant s → bufferInvariant (add_logs ls s).
Proof.
  revert s. induction ls as [|l ls IH]; intros s H; [done|].
  simpl. apply IH. exact H.
Qed.

Section Teardown.

Context (W : World) (ix : LspIndexerConfig).

Lemma bufferInvariant_processRequest request :
  preserves bufferInvariant (LspIndexer.processRequest W ix request).
Proof.
  intros s H. rewrite processRequest_run.
  assert (bufferInvariant (afterAnalysis W ix request s)) as H1.
  { unfold afterAnalysis. by apply bufferInvariant_after_index, bufferInvariant_add_logs. }
  destruct (readLocalFile W (localFilePath request)); simpl; [|done].
  by apply bufferInvariant_after_index.
Qed.

Lemma bufferInvariant_prepareRequests :
  preserves bufferInvariant (LspIndexer.prepareRequests W ix).
Proof.
  unfold LspIndexer.prepareRequests. apply preserves_try_catch.
  - apply preserves_bind; [apply preserves_await|]. intros ws.
    apply preserves_bind; [apply preserves_await|]. intros tree.
    apply preserves_ret.
  - intros e.
    apply preserves_bind; [apply preserves_log_error, bufferInvariant_stable|].
    intros _.
    apply preserves_bind; [apply preserves_log_error, bufferInvariant_stable|].
    intros _. apply preserves_throw.
Qed.

(** What [cancel] does to a state. *)
Lemma cancel_run s :
  LspIndexer.cancel s
  = (Ok tt, set_cancelled true (set_helper BatchIndexHelper.cancel_step s)).
Proof. done. Qed.

Lemma bufferInvariant_cancel : preserves bufferInvariant LspIndexer.cancel.
Proof.
  intros s [Hflush _]. rewrite cancel_run. split.
  - unfold received_calls in *. simpl. by rewrite filter_app, Hflush.
  - intros _. unfold received_calls. simpl. split_and!; [done..|].
    apply elem_of_app. right. by left.
Qed.

Lemma bufferInvariant_inherited_start cancelAfter reporter :
  preserves bufferInvariant
    (AbstractIndexer.start (LspIndexer.methods W ix) (client ix) cancelAfter reporter).
Proof.
  apply preserves_abstract_start.
  - apply bufferInvariant_stable.
  - apply preserves_ret.
  - apply bufferInvariant_prepareRequests.
  - apply bufferInvariant_processRequest.
  - apply bufferInvariant_cancel.
Qed.

(** C3.  Take a run of a newly constructed indexer, whenever (if ever) it is
    cancelled from outside and however the inherited [start] ends, normally
    or by throwing.  [start] ends the way the inherited [start] ended.  If the
    run is not cancelled when it ends, the helper has received exactly one
    [flush()] call, as its last call, and holds nothing unsent.  If the run
    is cancelled, the helper has received no [flush()] call at all; it has
    received [cancel()], is cancelled and holds nothing.  And [cancel] itself
    cancels the helper, which drops what it holds without sending it, and
    sets the flag. *)
Theorem start_flushes_once_unless_cancelled
    (cancelAfter : option nat) (reporter : bool) (size : nat) (backend : EsState) :
  let run := LspIndexer.start W ix cancelAfter reporter (initialState size backend) in
  let s' := run.2 in
  run.1 = (AbstractIndexer.start (LspIndexer.methods W ix) (client ix) cancelAfter reporter
             (initialState size backend)).1
  ∧ (if cancelled s'
     then filter is_flush_call (received_calls s') = []
          ∧ CallCancel ∈ received_calls s'
          ∧ helper_cancelled (batchIndexHelper s') = true
          ∧ batch (batchIndexHelper s') = []
     else filter is_flush_call (received_calls s') = [CallFlush]
          ∧ last (received_calls s') = Some CallFlush
          ∧ batch (batchIndexHelper s') = [])
  ∧ ∀ s : State,
      ∃ s1 : State,
        LspIndexer.cancel s = (Ok tt, s1)
        ∧ cancelled s1 = true
        ∧ helper_cancelled (batchIndexHelper s1) = true
        ∧ batch (batchIndexHelper s1) = []
        ∧ bulks (batchIndexHelper s1) = bulks (batchIndexHelper s)
        ∧ received_calls s1 = received_calls s ++ [CallCancel].
Proof.
  intros run s'. subst s' run.
  pose proof (bufferInvariant_inherited_start cancelAfter reporter
                (initialState size backend)) as Hinv.
  unfold LspIndexer.start, try_finally.
  destruct (AbstractIndexer.start _ _ _ _ _) as [r s1]. simpl in Hinv.
  destruct Hinv as [Hflush Hcancel]; [by split|].
  unfold mbind, M_bind, AbstractIndexer.isCancelled. simpl.
  split_and!.
  - by destruct (cancelled s1).
  - destruct (cancelled s1) eqn:Hc; simpl.
    + rewrite Hc. destruct (Hcancel eq_refl) as (? & ? & ?). done.
    + rewrite Hc. unfold received_calls in *. simpl.
      rewrite filter_app, Hflush, last_snoc. done.
  - intros s. eexists. split; [apply cancel_run|]. done.
Qed.

End Teardown.

(** ** Whole runs *)


Lemma count_mergeStats k a b :
  AbstractIndexer.count k (AbstractIndexer.mergeStats a b)
  = AbstractIndexer.count k a + AbstractIndexer.count k b.
Proof.
  unfold AbstractIndexer.count, AbstractIndexer.mergeStats.
  rewrite lookup_union_with.
  destruct (a !! k), (b !! k); cbn; lia.
Qed.

Lemma count_foldl_mergeStats k (l : list IndexStats) acc :
  AbstractIndexer.count k (foldl AbstractIndexer.mergeStats acc l)
  = AbstractIndexer.count k acc + sum_list (AbstractIndexer.count k <$> l).
Proof.
  revert acc. induction l as [|x l IH]; intros acc; csimpl; [lia|].
  rewrite IH, count_mergeStats. lia.
Qed.

Lemma start_unfold {Req} (m : AbstractIndexer.Methods Req) c cancelAfter reporter s :
  AbstractIndexer.start m c cancelAfter reporter s
  = match AbstractIndexer.prepareIndex m c (set_runState PreparingIndices s) with
    | (Ok _, s1) =>
        match AbstractIndexer.enumerate m (set_runState EnumeratingRequests s1) with
        | (Ok reqs, s2) =>
            AbstractIndexer.processAll m cancelAfter reporter (List.length reqs) 0 reqs
              AbstractIndexer.zeroStats (set_runState Processing s2)
        | (Throw e, s2) => (Throw e, s2)
        end
    | (Throw e, s1) => (Throw e, s1)
    end.
Proof.
  unfold AbstractIndexer.start, mbind, M_bind, modify.
  destruct (AbstractIndexer.prepareIndex _ _ _) as [[[]|e] s1]; [|done].
  by destruct (AbstractIndexer.enumerate _ _) as [[reqs|e] s2].
Qed.

Lemma prepareIndex_throws {Req} (m : AbstractIndexer.Methods Req) c s e s1 :
  AbstractIndexer.prepareIndex m c s = (Throw e, s1) → runState s1 = Failed.
Proof.
  unfold AbstractIndexer.prepareIndex, try_catch.
  destruct (_ ≫= _) as [[[]|e'] s'] eqn:E; [done|].
  by intros [= <- <-].
Qed.

Lemma sameBuffer_stable h flag : Stable (sameBuffer h flag).
Proof. split; intros ? s H; exact H. Qed.

Section WholeRuns.

Context (W : World) (ix : LspIndexerConfig).

Lemma prepareIndex_sameBuffer s :
  sameBuffer (batchIndexHelper s) (cancelled s)
    (AbstractIndexer.prepareIndex (LspIndexer.methods W ix) (client ix) s).2.
Proof.
  assert (preserves (sameBuffer (batchIndexHelper s) (cancelled s))
            (AbstractIndexer.prepareIndex (LspIndexer.methods W ix) (client ix))) as H.
  { pose proof (sameBuffer_stable (batchIndexHelper s) (cancelled s)) as HS.
    unfold AbstractIndexer.prepareIndex. apply preserves_try_catch.
    - apply preserves_bind; [apply preserves_ret|]. intros specs.
      apply preserves_for_of. intros req. by apply preserves_create.
    - intros e. apply preserves_bind; [by apply preserves_runState|].
      intros _. apply preserves_throw. }
  by apply H.
Qed.

Lemma prepareIndex_accepted s :
  (∀ req, create_rejects (client ix) req = None) →
  (AbstractIndexer.prepareIndex (LspIndexer.methods W ix) (client ix) s).1 = Ok tt.
Proof.
  intros Hc. unfold AbstractIndexer.prepareIndex, try_catch. simpl.
  unfold mbind, M_bind, Client.create. simpl. by rewrite !Hc.
Qed.

Lemma prepareRequests_failure e s :
  enumerationFails W ix e →
  LspIndexer.prepareRequests W ix s
  = (Throw e,
     add_logs [(LError, "Prepare lsp indexing requests error."); (LError, e)] s).
Proof.
  unfold LspIndexer.prepareRequests, try_catch, mbind, M_bind, await.
  intros [H|(ws & H1 & H2)]; by rewrite ?H, ?H1, ?H2.
Qed.

(** C8.  When enumeration fails (opening the workspace or walking the file
    tree throws), [prepareRequests] throws that same error; a run then ends
    by throwing, in state Failed, and the batch helper receives no [index()]
    call during it.  When schema preparation went through, the error the run
    throws is the enumeration error itself. *)
Theorem enumeration_failure_fails_run (e : Error) :
  enumerationFails W ix e →
  (∀ s : State, ∃ s' : State,
     LspIndexer.prepareRequests W ix s = (Throw e, s')
     ∧ batchIndexHelper s' = batchIndexHelper s)
  ∧ ∀ (cancelAfter : option nat) (reporter : bool) (s : State),
      let run := LspIndexer.start W ix cancelAfter reporter s in
      (∃ e', run.1 = Throw e')
      ∧ runState run.2 = Failed
      ∧ filter is_index_call (received_calls run.2) = filter is_index_call (received_calls s)
      ∧ ((∀ req, create_rejects (client ix) req = None) → run.1 = Throw e).
Proof.
  intros Hfail. split.
  { intros s. eexists. split; [by apply prepareRequests_failure|].
    apply helper_add_logs. }
  intros cancelAfter reporter s run.
  assert (∃ e' s1,
            AbstractIndexer.start (LspIndexer.methods W ix) (client ix) cancelAfter reporter s
            = (Throw e', s1)
            ∧ runState s1 = Failed
            ∧ batchIndexHelper s1 = batchIndexHelper s
            ∧ ((∀ req, create_rejects (client ix) req = None) → e' = e))
    as (e' & s1 & Hstart & Hstate & Hhelper & He).
  { rewrite start_unfold.
    pose proof (prepareIndex_sameBuffer (set_runState PreparingIndices s)) as [Hh _].
    pose proof (prepareIndex_throws (LspIndexer.methods W ix) (client ix)
                  (set_runState PreparingIndices s)) as Hthrow.
    pose proof (prepareIndex_accepted (set_runState PreparingIndices s)) as Hacc.
    destruct (AbstractIndexer.prepareIndex _ _ _) as [[[]|e1] s1]; simpl in *.
    - unfold AbstractIndexer.enumerate, try_catch. simpl.
      rewrite (prepareRequests_failure e _ Hfail). simpl.
      eexists _, _. split; [reflexivity|]. split_and!; [done|exact Hh|done].
    - eexists _, _. split; [reflexivity|]. split_and!; [by eapply Hthrow|exact Hh|].
      intros Hc. by specialize (Hacc Hc). }
  subst run. unfold LspIndexer.start, try_finally. rewrite Hstart.
  unfold mbind, M_bind, AbstractIndexer.isCancelled. simpl.
  destruct (cancelled s1); simpl.
  - split_and!; [by eexists|done| |intros Hc; by rewrite (He Hc)].
    unfold received_calls. by rewrite Hhelper.
  - split_and!; [by eexists|done| |intros Hc; by rewrite (He Hc)].
    unfold received_calls. simpl. rewrite Hhelper, filter_app. simpl.
    by rewrite app_nil_r.
Qed.

Lemma processRequest_result request s :
  (LspIndexer.processRequest W ix request s).1
  = match readLocalFile W (localFilePath request) with
    | Ok _ => Ok (<[File := 1]> (analysisLocals W ix request).1)
    | Throw e => Throw e
    end.
Proof.
  rewrite processRequest_run. by destruct (readLocalFile W (localFilePath request)).
Qed.

Lemma processRequest_cancelled request s :
  cancelled (LspIndexer.processRequest W ix request s).2 = cancelled s.
Proof.
  rewrite processRequest_run.
  destruct (readLocalFile W (localFilePath request)); simpl;
    unfold afterAnalysis; simpl; apply cancelled_add_logs.
Qed.

(** A run that nobody cancels processes every request, in order, and ends
    Completed with the sum of what the requests contributed. *)
Lemma processAll_uncancelled reporter total reqs :
  ∀ processed stats s,
    cancelled s = false →
    ∃ s',
      AbstractIndexer.processAll (LspIndexer.methods W ix) None reporter total processed
        reqs stats s
      = (Ok (foldl AbstractIndexer.mergeStats stats (itemStats W ix <$> reqs)), s')
      ∧ runState s' = Completed
      ∧ cancelled s' = false.
Proof.
  induction reqs as [|req reqs IH]; intros processed stats s Hc.
  - eexists. split; [reflexivity|]. done.
  - pose proof (processRequest_result req s) as Hres.
    pose proof (processRequest_cancelled req s) as Hcan.
    simpl. unfold mbind, M_bind. simpl. rewrite Hc. unfold try_catch.
    destruct (LspIndexer.processRequest W ix req s) as [r s1]. simpl in *.
    unfold itemStats at 1.
    destruct (readLocalFile W (localFilePath req)) as [content|e]; subst r.
    + destruct (AbstractIndexer.report reporter (S processed) total s1) as [[[]|e] s2] eqn:E;
        [|by destruct reporter].
      apply IH. destruct reporter; simpl in E; injection E as <-; simpl; congruence.
    + simpl.
      destruct (AbstractIndexer.report reporter (S processed) total _) as [[[]|e'] s2] eqn:E;
        [|by destruct reporter].
      apply IH. destruct reporter; simpl in E; injection E as <-; simpl; congruence.
Qed.

Lemma count_itemStats_File request :
  is_Ok (readLocalFile W (localFilePath request)) = true →
  AbstractIndexer.count File (itemStats W ix request) = 1.
Proof.
  unfold itemStats. destruct (readLocalFile _ _); [|done]. intros _.
  unfold AbstractIndexer.count. by rewrite lookup_insert_eq.
Qed.

Lemma count_itemStats_other k request :
  k ≠ File →
  is_Ok (readLocalFile W (localFilePath request)) = true →
  AbstractIndexer.count k (itemStats W ix request)
  = AbstractIndexer.count k (analysisLocals W ix request).1.
Proof.
  unfold itemStats. destruct (readLocalFile _ _); [|done]. intros Hk _.
  unfold AbstractIndexer.count. by rewrite lookup_insert_ne.
Qed.

Lemma sum_list_fmap_ext {A} (f g : A → nat) (l : list A) :
  (∀ x, x ∈ l → f x = g x) → sum_list (f <$> l) = sum_list (g <$> l).
Proof.
  induction l as [|x l IH]; intros H; csimpl; [done|].
  rewrite H by left. rewrite IH; [done|]. intros y Hy. apply H. by right.
Qed.

Lemma sum_list_fmap_const {A} (l : list A) (f : A → nat) :
  (∀ x, x ∈ l → f x = 1) → sum_list (f <$> l) = List.length l.
Proof.
  induction l as [|x l IH]; intros H; csimpl; [done|].
  rewrite H by left. rewrite IH; [done|]. intros y Hy. apply H. by right.
Qed.

Lemma set_helper_no_writes s : set_helper (after_index []) s = s.
Proof. by destruct s. Qed.

(** C1.  When the analysis request errors or its answer is empty,
    [processRequest] carries on with the file step exactly as with no
    symbols: if the local file can be read, it hands the document (with no
    qnames) to the batch helper and returns {Symbol: 0, Reference: 0,
    File: 1}.  So in a run that nobody cancels and whose files can all be
    read, whatever the analysis does for each file, the run ends Completed
    and counts File once per enumerated file; Symbol and Reference are the
    sums of what the answered analyses contributed. *)
Theorem analysis_failure_does_not_abort_item :
  (∀ (request : LspIndexRequest) (s : State),
     analysisFailedOrEmpty W ix request →
     LspIndexer.processRequest W ix request s
     = LspIndexer.indexFile W request (AbstractIndexer.zeroStats, [])
         (add_logs (analysisLogs W ix request) s)
     ∧ ∀ content,
         readLocalFile W (localFilePath request) = Ok content →
         ∃ s' : State,
           LspIndexer.processRequest W ix request s = (Ok (mkStats 0 0 1), s')
           ∧ received_calls s'
             = received_calls s
               ++ [CallIndex (DocumentIndexName W (req_repoUri request))
                     (PDocument (documentOf W request content []))])
  ∧ ∀ (reporter : bool) (size : nat) (backend : EsState) (ws : Workspace)
      (tree : FileTree W),
      (∀ req, create_rejects (client ix) req = None) →
      openWorkspace (lspService ix) (repoUri ix) "head" = Ok ws →
      fileTree W (repoPath (options ix)) (repoUri ix) "" "HEAD"
        0%N MAX_SAFE_INTEGER false MAX_SAFE_INTEGER = Ok tree →
      let reqs := LspIndexer.mkRequest ix ws
                    <$> List.filter (LspIndexer.keepFile W ix) (getAllFiles W tree) in
      (∀ request, request ∈ reqs →
                  is_Ok (readLocalFile W (localFilePath request)) = true) →
      ∃ (stats : IndexStats) (s' : State),
        LspIndexer.start W ix None reporter (initialState size backend) = (Ok stats, s')
        ∧ runState s' = Completed
        ∧ AbstractIndexer.count File stats = List.length reqs
        ∧ AbstractIndexer.count Symbol stats
          = sum_list ((λ r, AbstractIndexer.count Symbol (analysisLocals W ix r).1) <$> reqs)
        ∧ AbstractIndexer.count Reference stats
          = sum_list ((λ r, AbstractIndexer.count Reference (analysisLocals W ix r).1) <$> reqs).
Proof.
  split.
  - intros request s Hfail.
    destruct (analysisFailedOrEmpty_nothing W ix request Hfail) as [Hw Hl].
    assert (afterAnalysis W ix request s = add_logs (analysisLogs W ix request) s) as Hs.
    { unfold afterAnalysis. rewrite Hw. apply set_helper_no_writes. }
    split.
    + unfold LspIndexer.processRequest. unfold mbind, M_bind at 1.
      change (<[File:=0]> (<[Reference:=0]> (<[Symbol:=0]> ∅)))
        with AbstractIndexer.zeroStats.
      by rewrite tryBlock_run, Hl, Hs.
    + intros content Hread. rewrite processRequest_run, Hread, Hl. simpl.
      eexists. split; [by rewrite <- stats_after_nothing|].
      unfold received_calls at 1. rewrite helper_set_helper, received_after_index.
      fold (received_calls (afterAnalysis W ix request s)).
      by rewrite received_afterAnalysis, Hw, app_nil_r.
  - intros reporter size backend ws tree Hcreate Hws Htree reqs Hread.
    unfold LspIndexer.start, try_finally. rewrite start_unfold.
    pose proof (prepareIndex_sameBuffer
                  (set_runState PreparingIndices (initialState size backend))) as [_ Hc1].
    pose proof (prepareIndex_accepted
                  (set_runState PreparingIndices (initialState size backend)) Hcreate) as Hacc.
    destruct (AbstractIndexer.prepareIndex _ _ _) as [r1 s1]. simpl in Hacc, Hc1. subst r1.
    unfold AbstractIndexer.enumerate, try_catch. simpl.
    rewrite (prepareRequests_run W ix (set_runState EnumeratingRequests s1)
               ws tree Hws Htree).
    fold reqs.
    destruct (processAll_uncancelled reporter (List.length reqs) reqs 0
                AbstractIndexer.zeroStats
                (set_runState Processing (set_runState EnumeratingRequests s1)) Hc1)
      as (s2 & -> & Hstate & Hc2).
    unfold mbind, M_bind, AbstractIndexer.isCancelled. simpl. rewrite Hc2. simpl.
    eexists _, _. split; [reflexivity|]. split_and!.
    + done.
    + rewrite count_foldl_mergeStats, <- list_fmap_compose.
      rewrite (sum_list_fmap_const reqs); [done|].
      intros r Hr. by apply count_itemStats_File, Hread.
    + rewrite count_foldl_mergeStats, <- list_fmap_compose.
      apply (sum_list_fmap_ext _ _ reqs).
      intros r Hr. by apply count_itemStats_other, Hread.
    + rewrite count_foldl_mergeStats, <- list_fmap_compose.
      apply (sum_list_fmap_ext _ _ reqs).
      intros r Hr. by apply count_itemStats_other, Hread.
Qed.

End WholeRuns.

(** ** The properties on the small repository *)

Import Scenario.

(** a.ts: three symbols (one name twice), one reference. *)
Lemma processRequest_indexes_analysis_result_witness :
  (LspIndexer.processRequest world ix (request "a.ts") fresh).1 = Ok (mkStats 3 1 1)
  ∧ received_calls (LspIndexer.processRequest world ix (request "a.ts") fresh).2
    = [CallIndex ".code-symbol-github.com/elastic/demo" (PSymbol (sym "f"));
       CallIndex ".code-symbol-github.com/elastic/demo" (PSymbol (sym "g"));
       CallIndex ".code-symbol-github.com/elastic/demo" (PSymbol (sym "f"));
       CallIndex ".code-reference-github.com/elastic/demo" (PReference (use "g"));
       CallIndex ".code-document-github.com/elastic/demo"
         (PDocument {| doc_repoUri := uri; doc_path := "a.ts";
                       doc_content := "export const f = g()";
                       doc_language := "typescript"; doc_qnames := ["f"; "g"] |})].
Proof.
  assert (analysis world ix (request "a.ts")
          = Ok (Some {| result := firstResult :: [secondResult] |})) as H1
    by (vm_compute; reflexivity).
  assert (readLocalFile world (localFilePath (request "a.ts")) = Ok "export const f = g()")
    as H2 by (vm_compute; reflexivity).
  destruct (processRequest_indexes_analysis_result world ix (request "a.ts") fresh
              firstResult [secondResult] H1)
    as (names & _ & _ & _ & Hread).
  destruct (Hread "export const f = g()" H2) as (s' & Hrun & _).
  split; [by rewrite Hrun|vm_compute; reflexivity].
Defined.

(** link.ts is a link to a.ts: the document holds the link text. *)
Lemma processRequest_document_content_witness :
  (∃ document,
     last (received_calls (LspIndexer.processRequest world ix (request "link.ts") fresh).2)
     = Some (CallIndex (DocumentIndexName world uri) (PDocument document))
     ∧ doc_content document = "a.ts"
     ∧ readFile world "/ws/head/link.ts" = Ok "export const f = g()")
  ∧ (∃ document,
       last (received_calls (LspIndexer.processRequest world ix (request "b.ts") fresh).2)
       = Some (CallIndex (DocumentIndexName world uri) (PDocument document))
       ∧ doc_content document = "syntax error").
Proof.
  split.
  - assert (lstat world (localFilePath (request "link.ts")) = Ok {| isSymbolicLink := true |})
      as H1 by (vm_compute; reflexivity).
    assert (readlink world (localFilePath (request "link.ts")) = Ok "a.ts")
      as H2 by (vm_compute; reflexivity).
    destruct (processRequest_document_content world ix (request "link.ts") fresh
                {| isSymbolicLink := true |} "a.ts" H1 H2)
      as (stats & s' & document & Hrun & Hlast & _ & _ & Hcontent & _).
    exists document. rewrite Hrun. split_and!; [exact Hlast|exact Hcontent|].
    vm_compute; reflexivity.
  - assert (lstat world (localFilePath (request "b.ts")) = Ok {| isSymbolicLink := false |})
      as H1 by (vm_compute; reflexivity).
    assert (readFile world (localFilePath (request "b.ts")) = Ok "syntax error")
      as H2 by (vm_compute; reflexivity).
    destruct (processRequest_document_content world ix (request "b.ts") fresh
                {| isSymbolicLink := false |} "syntax error" H1 H2)
      as (stats & s' & document & Hrun & Hlast & _ & _ & Hcontent & _).
    exists document. rewrite Hrun. split; [exact Hlast|exact Hcontent].
Defined.

(** locked.ts cannot be read: the symbol and the two references the analysis
    returned have reached the helper, the document has not. *)
Lemma processRequest_read_failure_witness :
  (LspIndexer.processRequest world ix (request "locked.ts") fresh).1 = Throw "EACCES"
  ∧ received_calls (LspIndexer.processRequest world ix (request "locked.ts") fresh).2
    = [CallIndex ".code-symbol-github.com/elastic/demo" (PSymbol (sym "h"));
       CallIndex ".code-reference-github.com/elastic/demo" (PReference (use "h"));
       CallIndex ".code-reference-github.com/elastic/demo" (PReference (use "h"))].
Proof.
  assert (fileReadFails world (localFilePath (request "locked.ts")) "EACCES") as H.
  { right. right. exists {| isSymbolicLink := false |}.
    split_and!; vm_compute; reflexivity. }
  destruct (processRequest_read_failure world ix (request "locked.ts") fresh "EACCES" H)
    as (s' & Hrun & _ & Hrecv & _).
  rewrite Hrun. simpl. rewrite Hrecv.
  split; vm_compute; reflexivity.
Defined.

(** a.ts again: the second result element (symbol h, two references) leaves
    no trace. *)
Lemma processRequest_first_result_only_witness :
  LspIndexer.processRequest world ix (request "a.ts") fresh
  = LspIndexer.processRequest world
      (withAnswer (Ok (Some {| result := [firstResult] |})) ix) (request "a.ts") fresh.
Proof.
  assert (analysis world ix (request "a.ts")
          = Ok (Some {| result := firstResult :: secondResult :: [] |})) as H
    by (vm_compute; reflexivity).
  exact (proj1 (processRequest_first_result_only world ix (request "a.ts") fresh
                  firstResult secondResult [] H)).
Defined.

(** A backend that rejects the references deletion: the documents deletion
    still happens and only the two marker documents are left. *)
Lemma cleanIndex_keeps_marker_documents_witness :
  stored (DocumentIndexName world uri)
    (LspIndexer.cleanIndex world (indexer "r1" lsp flakyClient) uri fresh).2
  = [marker; statusMarker].
Proof.
  assert (DocumentIndexName world uri ≠ SymbolIndexName world uri) as H1
    by (vm_compute; discriminate).
  assert (DocumentIndexName world uri ≠ ReferenceIndexName world uri) as H2
    by (vm_compute; discriminate).
  destruct (cleanIndex_keeps_marker_documents world (indexer "r1" lsp flakyClient) uri fresh
              H1 H2) as (_ & -> & _).
  vm_compute; reflexivity.
Defined.

(** The workspace cannot be opened: the run fails without a single write. *)
Lemma enumeration_failure_fails_run_witness :
  let run := LspIndexer.start world (indexer "r1" lspWithoutWorkspace healthyClient)
               None true fresh in
  run.1 = Throw "workspace unavailable"
  ∧ runState run.2 = Failed
  ∧ filter is_index_call (received_calls run.2) = [].
Proof.
  assert (enumerationFails world (indexer "r1" lspWithoutWorkspace healthyClient)
            "workspace unavailable") as H by (left; vm_compute; reflexivity).
  destruct (enumeration_failure_fails_run world
              (indexer "r1" lspWithoutWorkspace healthyClient) "workspace unavailable" H)
    as [_ Hrun].
  destruct (Hrun None true fresh) as (_ & Hstate & Hcalls & Herror).
  split_and!; [apply Herror; by intros req|exact Hstate|exact Hcalls].
Defined.

(** The analysis fails for b.ts, one file of three: File is 3. *)
Lemma analysis_failure_does_not_abort_item_witness :
  (LspIndexer.processRequest world ix (request "b.ts") fresh).1 = Ok (mkStats 0 0 1)
  ∧ ∃ stats s',
      LspIndexer.start world ix None true fresh = (Ok stats, s')
      ∧ runState s' = Completed
      ∧ AbstractIndexer.count File stats = 3.
Proof.
  destruct (analysis_failure_does_not_abort_item world ix) as [Hitem Hrun]. split.
  - assert (analysisFailedOrEmpty world ix (request "b.ts")) as H
      by (left; exists "request timed out"; vm_compute; reflexivity).
    destruct (Hitem (request "b.ts") fresh H) as [_ Hread].
    destruct (Hread "syntax error") as (s' & -> & _); [vm_compute; reflexivity|].
    reflexivity.
  - destruct (Hrun true 1000 backend {| workdir := "/ws/head/"; workspaceRevision := "r2" |}
                ["a.ts"; "README.md"; "b.ts"; "link.ts"; "Makefile"])
      as (stats & s' & Hstart & Hstate & Hfile & _).
    + by intros req.
    + vm_compute; reflexivity.
    + vm_compute; reflexivity.
    + intros r Hr. vm_compute in Hr.
      repeat (apply elem_of_cons in Hr as [->|Hr]; [vm_compute; reflexivity|]).
      by apply elem_of_nil in Hr.
    + exists stats, s'. split_and!; [exact Hstart|exact Hstate|exact Hfile].
Defined.

(** A run nobody cancels ends with one flush; a run cancelled after its
    first item ends Cancelled, without a flush and with an empty helper. *)
Lemma start_flushes_once_unless_cancelled_witness :
  filter is_flush_call (received_calls (LspIndexer.start world ix None true fresh).2)
  = [CallFlush]
  ∧ (filter is_flush_call (received_calls (LspIndexer.start world ix (Some 1) true fresh).2)
     = []
     ∧ batch (batchIndexHelper (LspIndexer.start world ix (Some 1) true fresh).2) = []
     ∧ runState (LspIndexer.start world ix (Some 1) true fresh).2 = Cancelled).
Proof.
  split.
  - pose proof (start_flushes_once_unless_cancelled world ix None true 1000 backend)
      as (_ & H & _).
    cbv zeta in H.
    replace (cancelled (LspIndexer.start world ix None true (initialState 1000 backend)).2)
      with false in H by (vm_compute; reflexivity).
    exact (proj1 H).
  - pose proof (start_flushes_once_unless_cancelled world ix (Some 1) true 1000 backend)
      as (_ & H & _).
    cbv zeta in H.
    replace (cancelled (LspIndexer.start world ix (Some 1) true (initialState 1000 backend)).2)
      with true in H by (vm_compute; reflexivity).
    destruct H as (H1 & _ & _ & H2).
    split_and!; [exact H1|exact H2|vm_compute; reflexivity].
Defined.

(** With the references deletion rejected, the three deletions are still
    all issued, in order, and [cleanIndex] returns. *)
Lemma cleanIndex_attempts_every_deletion_witness :
  (LspIndexer.cleanIndex world (indexer "r1" lsp flakyClient) uri fresh).1 = Ok tt
  ∧ dq_index <$> deleteRequests
                   (es (LspIndexer.cleanIndex world (indexer "r1" lsp flakyClient) uri fresh).2)
    = [".code-symbol-github.com/elastic/demo"; ".code-reference-github.com/elastic/demo";
       ".code-document-github.com/elastic/demo"].
Proof.
  destruct (cleanIndex_attempts_every_deletion world (indexer "r1" lsp flakyClient) uri fresh)
    as (s' & Hrun & Hreq & _).
  rewrite Hrun. simpl. rewrite Hreq. split; vm_compute; reflexivity.
Defined.

(** * Further properties of the indexer *)

(** ** Lists *)

Lemma filter_all_true {A} (p : A → bool) (l : list A) :
  (∀ x, x ∈ l → p x = true) → List.filter p l = l.
Proof.
  induction l as [|x l IH]; intros H; [done|]. simpl.
  rewrite H by left. f_equal. apply IH. intros y Hy. apply H. by right.
Qed.

Lemma filter_all_false {A} (p : A → bool) (l : list A) :
  (∀ x, x ∈ l → p x = false) → List.filter p l = [].
Proof.
  induction l as [|x l IH]; intros H; [done|]. simpl.
  rewrite H by left. apply IH. intros y Hy. apply H. by right.
Qed.

Lemma filter_filter_and {A} (p q : A → bool) (l : list A) :
  List.filter p (List.filter q l) = List.filter (λ x, q x && p x) l.
Proof.
  induction l as [|x l IH]; [done|]. simpl.
  destruct (q x); simpl; [destruct (p x)|]; by rewrite IH.
Qed.

Lemma filter_sublist {A} (p : A → bool) (l : list A) : sublist (List.filter p l) l.
Proof.
  induction l as [|x l IH]; simpl; [done|].
  destruct (p x); by constructor.
Qed.

Lemma elem_of_List_filter {A} (p : A → bool) (l : list A) (x : A) :
  x ∈ List.filter p l ↔ x ∈ l ∧ p x = true.
Proof. rewrite !list_elem_of_In. apply List.filter_In. Qed.

(** ** State left alone by the log and by [index] calls *)



Lemma progress_add_logs ls s : progress (add_logs ls s) = progress s.
Proof. revert s. induction ls as [|l ls IH]; intros s; [done|]. simpl. by rewrite IH. Qed.



(** A cancelled helper takes note of [index] calls and nothing else. *)
Lemma after_index_cancelled ws h :
  helper_cancelled h = true →
  batch (after_index ws h) = batch h ∧ bulks (after_index ws h) = bulks h.
Proof.
  revert h. induction ws as [|w ws IH]; intros h Hc; [done|].
  unfold after_index in *. simpl.
  assert (BatchIndexHelper.index_step w.1 w.2 h
          = BatchIndexHelper.record_call (CallIndex w.1 w.2) h) as ->.
  { unfold BatchIndexHelper.index_step. simpl. by rewrite Hc. }
  by destruct (IH (BatchIndexHelper.record_call (CallIndex w.1 w.2) h) Hc) as [-> ->].
Qed.


(** ** The name set, in order *)

Lemma length_firstOccurrences l : (List.length (firstOccurrences l) ≤ List.length l)%nat.
Proof.
  induction l as [|x l IH]; simpl; [done|].
  pose proof (List.filter_length_le (λ y, negb (bool_decide (y = x))) (firstOccurrences l)).
  lia.
Qed.

Lemma firstOccurrences_NoDup l : NoDup l → firstOccurrences l = l.
Proof.
  induction l as [|x l IH]; intros H; [done|].
  apply NoDup_cons in H as [Hx Hl]. simpl. rewrite IH by done. f_equal.
  apply filter_all_true. intros y Hy. apply negb_true_iff, bool_decide_eq_false.
  intros ->. done.
Qed.

Lemma collectNames_from syms acc :
  collectNames syms acc
  = acc ++ List.filter (λ y, negb (bool_decide (y ∈ acc)))
             (firstOccurrences ((λ sym, name (symbolInformation sym)) <$> syms)).
Proof.
  revert acc. induction syms as [|sym syms IH]; intros acc.
  - simpl. by rewrite app_nil_r.
  - rewrite fmap_cons. simpl. rewrite IH. unfold LspIndexer.set_add.
    set (n := name (symbolInformation sym)).
    rewrite filter_filter_and. case_decide as Hn.
    + rewrite bool_decide_eq_true_2 by done. simpl. f_equal.
      apply List.filter_ext. intros y.
      destruct (bool_decide (y = n)) eqn:E; simpl; [|done].
      apply bool_decide_eq_true in E as ->.
      by rewrite bool_decide_eq_true_2.
    + rewrite bool_decide_eq_false_2 by done. simpl. rewrite <- app_assoc. simpl.
      f_equal. f_equal. apply List.filter_ext. intros y.
      destruct (bool_decide (y ∈ acc)) eqn:E1, (bool_decide (y = n)) eqn:E2; simpl.
      * apply negb_false_iff, bool_decide_eq_true.
        apply bool_decide_eq_true in E1. apply elem_of_app. by left.
      * apply negb_false_iff, bool_decide_eq_true.
        apply bool_decide_eq_true in E1. apply elem_of_app. by left.
      * apply negb_false_iff, bool_decide_eq_true.
        apply bool_decide_eq_true in E2 as ->. apply elem_of_app. right. by left.
      * apply negb_true_iff, bool_decide_eq_false.
        apply bool_decide_eq_false in E1. apply bool_decide_eq_false in E2.
        rewrite elem_of_app, list_elem_of_singleton. tauto.
Qed.

Lemma collectNames_firstOccurrences syms :
  collectNames syms [] = firstOccurrences ((λ sym, name (symbolInformation sym)) <$> syms).
Proof.
  rewrite collectNames_from. simpl. apply filter_all_true.
  intros y _. first [done | apply negb_true_iff, bool_decide_eq_false, not_elem_of_nil].
Qed.

(** ** More on the per-file step *)

Section ProcessRequestFurther.

Context (W : World) (ix : LspIndexerConfig).

Lemma processRequest_state request s :
  (LspIndexer.processRequest W ix request s).2
  = set_helper
      (after_index
         (analysisWrites W ix request
          ++ match readLocalFile W (localFilePath request) with
             | Ok content =>
                 [documentWrite W request content (analysisLocals W ix request).2]
             | Throw _ => []
             end))
      (add_logs (analysisLogs W ix request) s).
Proof.
  rewrite processRequest_run. unfold afterAnalysis.
  destruct (readLocalFile W (localFilePath request)); simpl.
  - destruct (add_logs _ s). unfold set_helper. simpl. f_equal.
    by rewrite after_index_app.
  - by rewrite app_nil_r.
Qed.

Lemma analysisLocals_counters request :
  ∀ k, is_Some ((analysisLocals W ix request).1 !! k).
Proof.
  intros k. unfold analysisLocals, AbstractIndexer.zeroStats.
  destruct (analysis W ix request) as [[[[|first rest]]|]|e];
    destruct k; simplify_map_eq; eauto.
Qed.

(** X1.  The only errors [processRequest] lets out are those of reading the
    local file: it throws [e] exactly when [lstat], [readlink] or [readFile]
    fails with [e].  An error of the analysis request never escapes.  And
    whenever it returns, the statistics hold all three counters, with
    File = 1. *)
Theorem processRequest_throws_only_read_errors
    (request : LspIndexRequest) (s : State) (e : Error) :
  ((LspIndexer.processRequest W ix request s).1 = Throw e
   ↔ fileReadFails W (localFilePath request) e)
  ∧ ∀ stats : IndexStats,
      (LspIndexer.processRequest W ix request s).1 = Ok stats →
      AbstractIndexer.count File stats = 1
      ∧ ∀ k, is_Some (stats !! k).
Proof.
  rewrite (processRequest_result W ix), fileReadFails_spec. split.
  - destruct (readLocalFile W (localFilePath request)); [done|]. split; congruence.
  - intros stats. destruct (readLocalFile W (localFilePath request)); [|done].
    intros [= <-]. split.
    + unfold AbstractIndexer.count. by rewrite lookup_insert_eq.
    + intros k. destruct (decide (k = File)) as [->|Hk].
      * rewrite lookup_insert_eq. eauto.
      * rewrite lookup_insert_ne by done. apply analysisLocals_counters.
Qed.


(** X3.  After [cancel()], [processRequest] still runs to the same result as
    before it, statistics included, but none of its writes is kept: the
    helper's batch stays empty and nothing more is sent.  (The helper is the
    one modelled from section 4.1 of the specification.) *)
Theorem processRequest_after_cancel (request : LspIndexRequest) (s : State) :
  let s1 := (LspIndexer.cancel s).2 in
  let run := LspIndexer.processRequest W ix request s1 in
  run.1 = (LspIndexer.processRequest W ix request s).1
  ∧ batch (batchIndexHelper run.2) = []
  ∧ bulks (batchIndexHelper run.2) = bulks (batchIndexHelper s)
  ∧ cancelled run.2 = true.
Proof.
  intros s1 run. subst run s1. rewrite cancel_run.
  rewrite !(processRequest_result W ix), processRequest_state.
  split_and!; [done| | |].
  - rewrite helper_set_helper, helper_add_logs.
    match goal with
    | |- batch (after_index ?ws ?h) = _ =>
        by destruct (after_index_cancelled ws h eq_refl) as [-> _]
    end.
  - rewrite helper_set_helper, helper_add_logs.
    match goal with
    | |- bulks (after_index ?ws ?h) = _ =>
        by destruct (after_index_cancelled ws h eq_refl) as [_ ->]
    end.
  - unfold snd. cbn [cancelled set_helper]. by rewrite cancelled_add_logs.
Qed.

(** X4.  The qnames of the document keep the order in which the names first
    occur among the symbols: a name that comes back several times is listed
    once, at its first place.  So qnames is never longer than the list of
    symbols, while the Symbol counter counts every symbol; and when the
    names are all different qnames is the list of names as it came. *)
Theorem processRequest_qnames_in_first_occurrence_order
    (request : LspIndexRequest) (s : State) (first : Full) (rest : list Full)
    (content : string) :
  analysis W ix request = Ok (Some {| result := first :: rest |}) →
  readLocalFile W (localFilePath request) = Ok content →
  last (received_calls (LspIndexer.processRequest W ix request s).2)
  = Some (CallIndex (DocumentIndexName W (req_repoUri request))
            (PDocument (documentOf W request content
                          (firstOccurrences (symbolNamesOf first)))))
  ∧ (List.length (firstOccurrences (symbolNamesOf first)) ≤ List.length (symbols first))%nat
  ∧ (∀ stats, (LspIndexer.processRequest W ix request s).1 = Ok stats →
              AbstractIndexer.count Symbol stats = List.length (symbols first))
  ∧ (NoDup (symbolNamesOf first) →
     firstOccurrences (symbolNamesOf first) = symbolNamesOf first).
Proof.
  intros Hanalysis Hread.
  assert (Hl : analysisLocals W ix request
               = (<[Reference := List.length (references first)]>
                    (<[Symbol := List.length (symbols first)]> AbstractIndexer.zeroStats),
                  firstOccurrences (symbolNamesOf first))).
  { unfold analysisLocals. rewrite Hanalysis. f_equal. apply collectNames_firstOccurrences. }
  split_and!.
  - rewrite processRequest_state, Hread, Hl. unfold received_calls.
    rewrite helper_set_helper, helper_add_logs, received_after_index.
    rewrite fmap_app, app_assoc. simpl. by rewrite last_snoc.
  - pose proof (length_firstOccurrences (symbolNamesOf first)) as H.
    unfold symbolNamesOf in H at 2. by rewrite length_fmap in H.
  - intros stats. rewrite (processRequest_result W ix), Hread, Hl. intros [= <-].
    unfold AbstractIndexer.count. simpl. by simplify_map_eq.
  - apply firstOccurrences_NoDup.
Qed.

End ProcessRequestFurther.

(** ** More on enumeration *)

Section PrepareRequestsFurther.

Context (W : World) (ix : LspIndexerConfig).

(** X5.  Enumeration throws [e] exactly when opening the workspace throws
    [e], or the workspace opens and the walk of the file tree throws [e]:
    filtering and building the requests cannot fail.  When it throws it
    leaves two error entries in the log, the second being the error; when it
    returns it leaves the state as it found it. *)
Theorem prepareRequests_throws_only_enumeration_errors (s : State) (e : Error) :
  ((LspIndexer.prepareRequests W ix s).1 = Throw e ↔ enumerationFails W ix e)
  ∧ (enumerationFails W ix e →
     log (LspIndexer.prepareRequests W ix s).2
     = log s ++ [(LError, "Prepare lsp indexing requests error."); (LError, e)])
  ∧ (is_Ok (LspIndexer.prepareRequests W ix s).1 = true →
     (LspIndexer.prepareRequests W ix s).2 = s).
Proof.
  split_and!.
  - split; [|intros H; by rewrite (prepareRequests_failure W ix e s H)].
    unfold enumerationFails, LspIndexer.prepareRequests, try_catch, mbind, M_bind, await.
    destruct (openWorkspace _ _ _) as [ws|e1]; simpl.
    + destruct (fileTree W _ _ _ _ _ _ _ _) as [tree|e2]; simpl; [done|].
      intros [= ->]. right. by exists ws.
    + intros [= ->]. by left.
  - intros H. rewrite (prepareRequests_failure W ix e s H). simpl.
    by rewrite <- app_assoc.
  - unfold LspIndexer.prepareRequests, try_catch, mbind, M_bind, await.
    destruct (openWorkspace _ _ _) as [ws|e1]; simpl; [|done].
    by destruct (fileTree W _ _ _ _ _ _ _ _) as [tree|e2].
Qed.


End PrepareRequestsFurther.

(** ** More on cleanup *)

Section CleanIndexFurther.

Context (W : World) (ix : LspIndexerConfig).

Lemma deleteEffect_lookup (params : DeleteByQueryParams) (e : EsState) (k : string) :
  indices (deleteEffect (client ix) params e) !! k
  = List.filter (deletionKeeps (client ix) params k) <$> indices e !! k.
Proof.
  unfold deleteEffect, deletionKeeps.
  destruct (deleteByQuery_rejects (client ix) params); simpl.
  - destruct (indices e !! k) as [l|]; [|done]. simpl. f_equal.
    symmetry. by apply filter_all_true.
  - destruct (decide (dq_index params = k)) as [<-|Hne].
    + by rewrite lookup_alter_eq.
    + rewrite lookup_alter_ne by done.
      destruct (indices e !! k) as [l|]; [|done]. simpl. f_equal.
      symmetry. by apply filter_all_true.
Qed.

(** Each collection after [cleanIndex] is the collection before it, filtered. *)
Lemma cleanIndex_lookup (uri : RepositoryUri) (s : State) (k : string) :
  indices (es (LspIndexer.cleanIndex W ix uri s).2) !! k
  = List.filter (cleanIndexKeeps W ix uri k) <$> indices (es s) !! k.
Proof.
  rewrite cleanIndex_backend, !deleteEffect_lookup.
  destruct (indices (es s) !! k) as [l|]; [|done]. simpl. f_equal.
  rewrite !filter_filter_and. apply List.filter_ext. intros d.
  unfold cleanIndexKeeps. by rewrite andb_assoc.
Qed.

(** X7.  [cleanIndex] only ever removes documents.  It creates no collection
    and drops none; what a collection holds afterwards is a sublist of what
    it held, in the same order; and a collection other than the symbols, the
    references and the documents collection of the repository is exactly as
    before, whatever the backend accepts or rejects. *)
Theorem cleanIndex_only_removes (uri : RepositoryUri) (s : State) (k : string) :
  let s' := (LspIndexer.cleanIndex W ix uri s).2 in
  (is_Some (indices (es s') !! k) ↔ is_Some (indices (es s) !! k))
  ∧ sublist (stored k s') (stored k s)
  ∧ (k ≠ SymbolIndexName W uri → k ≠ ReferenceIndexName W uri →
     k ≠ DocumentIndexName W uri →
     indices (es s') !! k = indices (es s) !! k).
Proof.
  intros s'. subst s'. split_and!.
  - rewrite cleanIndex_lookup. by rewrite fmap_is_Some.
  - unfold stored. rewrite cleanIndex_lookup.
    destruct (indices (es s) !! k) as [l|]; simpl; [apply filter_sublist|done].
  - intros H1 H2 H3. rewrite cleanIndex_lookup.
    destruct (indices (es s) !! k) as [l|]; [|done]. simpl. f_equal.
    apply filter_all_true. intros d _.
    unfold cleanIndexKeeps, deletionKeeps. simpl.
    rewrite !decide_False by done.
    by repeat destruct (deleteByQuery_rejects _ _).
Qed.

(** X8.  When the backend accepts the deletion in the symbols collection,
    that collection is empty after [cleanIndex]; likewise for the references
    collection.  A rejection of one of the other deletions does not change
    that. *)
Theorem cleanIndex_empties_symbols_and_references (uri : RepositoryUri) (s : State) :
  (deleteByQuery_rejects (client ix) (LspIndexer.cleanSymbols W uri) = None →
   stored (SymbolIndexName W uri) (LspIndexer.cleanIndex W ix uri s).2 = [])
  ∧ (deleteByQuery_rejects (client ix) (LspIndexer.cleanReferences W uri) = None →
     stored (ReferenceIndexName W uri) (LspIndexer.cleanIndex W ix uri s).2 = []).
Proof.
  split; intros Hacc; unfold stored; rewrite cleanIndex_lookup;
    (destruct (indices (es s) !! _) as [l|]; [|done]); simpl;
    apply filter_all_false; intros d _; unfold cleanIndexKeeps.
  - unfold deletionKeeps at 1. rewrite Hacc. simpl. by rewrite decide_True.
  - unfold deletionKeeps at 2. rewrite Hacc. simpl. rewrite decide_True by done.
    simpl. by rewrite andb_false_r.
Qed.

(** X9.  Running [cleanIndex] a second time against the same backend
    behaviour removes nothing more: the collections after two runs are those
    after one. *)
Theorem cleanIndex_twice (uri : RepositoryUri) (s : State) :
  indices (es (LspIndexer.cleanIndex W ix uri (LspIndexer.cleanIndex W ix uri s).2).2)
  = indices (es (LspIndexer.cleanIndex W ix uri s).2).
Proof.
  apply map_eq. intros k. rewrite !cleanIndex_lookup.
  destruct (indices (es s) !! k) as [l|]; [|done]. simpl. f_equal.
  rewrite filter_filter_and. apply List.filter_ext. intros d. apply andb_diag.
Qed.

End CleanIndexFurther.

(** ** More on whole runs *)

Section WholeRunsFurther.

Context (W : World) (ix : LspIndexerConfig).

Lemma prepareIndex_run s :
  (∀ req, create_rejects (client ix) req = None) →
  ∃ f, AbstractIndexer.prepareIndex (LspIndexer.methods W ix) (client ix) s
       = (Ok tt, set_es f s).
Proof.
  intros Hc. unfold AbstractIndexer.prepareIndex, try_catch. simpl.
  unfold mbind, M_bind, Client.create. simpl. rewrite !Hc.
  eexists (λ e, Client.apply_create _ (Client.apply_create _ (Client.apply_create _ e))).
  reflexivity.
Qed.

(** With the collections created and the enumeration done, the inherited
    [start] is the processing loop over the enumerated requests. *)
Lemma inherited_start_run cancelAfter reporter s ws tree :
  (∀ req, create_rejects (client ix) req = None) →
  openWorkspace (lspService ix) (repoUri ix) "head" = Ok ws →
  fileTree W (repoPath (options ix)) (repoUri ix) "" "HEAD"
    0%N MAX_SAFE_INTEGER false MAX_SAFE_INTEGER = Ok tree →
  let reqs := LspIndexer.mkRequest ix ws
                <$> List.filter (LspIndexer.keepFile W ix) (getAllFiles W tree) in
  ∃ s0,
    cancelled s0 = cancelled s
    ∧ progress s0 = progress s
    ∧ batchIndexHelper s0 = batchIndexHelper s
    ∧ AbstractIndexer.start (LspIndexer.methods W ix) (client ix) cancelAfter reporter s
      = AbstractIndexer.processAll (LspIndexer.methods W ix) cancelAfter reporter
          (List.length reqs) 0 reqs AbstractIndexer.zeroStats s0.
Proof.
  intros Hc Hws Htree reqs. rewrite start_unfold.
  destruct (prepareIndex_run (set_runState PreparingIndices s) Hc) as [f ->].
  unfold AbstractIndexer.enumerate, try_catch. simpl.
  rewrite (prepareRequests_run W ix _ ws tree Hws Htree).
  eexists. split_and!; [| | |reflexivity]; done.
Qed.

Lemma processRequest_progress request s :
  progress (LspIndexer.processRequest W ix request s).2 = progress s.
Proof.
  rewrite processRequest_run.
  destruct (readLocalFile W (localFilePath request)); simpl;
    unfold afterAnalysis; simpl; apply progress_add_logs.
Qed.

Lemma sum_count_File_itemStats (reqs : list LspIndexRequest) :
  sum_list (AbstractIndexer.count File <$> (itemStats W ix <$> reqs))
  = List.length (List.filter (readable W) reqs).
Proof.
  induction reqs as [|r reqs IH]; [done|]. csimpl. rewrite IH.
  unfold readable at 2, itemStats at 1.
  destruct (readLocalFile W (localFilePath r)); simpl.
  - unfold AbstractIndexer.count. by rewrite lookup_insert_eq.
  - done.
Qed.

(** X10.  A file that cannot be read does not fail the run.  In a run that
    nobody cancels, with the collections created and the enumeration done,
    [start] returns normally in state Completed whatever the language server
    and the file system do for the single files, and File counts exactly the
    enumerated files that could be read.  (The processing loop is the one
    modelled from section 4.2 of the specification.) *)
Theorem run_counts_the_readable_files
    (reporter : bool) (size : nat) (backend : EsState) (ws : Workspace) (tree : FileTree W) :
  (∀ req, create_rejects (client ix) req = None) →
  openWorkspace (lspService ix) (repoUri ix) "head" = Ok ws →
  fileTree W (repoPath (options ix)) (repoUri ix) "" "HEAD"
    0%N MAX_SAFE_INTEGER false MAX_SAFE_INTEGER = Ok tree →
  let reqs := LspIndexer.mkRequest ix ws
                <$> List.filter (LspIndexer.keepFile W ix) (getAllFiles W tree) in
  ∃ (stats : IndexStats) (s' : State),
    LspIndexer.start W ix None reporter (initialState size backend) = (Ok stats, s')
    ∧ runState s' = Completed
    ∧ cancelled s' = false
    ∧ AbstractIndexer.count File stats = List.length (List.filter (readable W) reqs).
Proof.
  intros Hc Hws Htree reqs.
  destruct (inherited_start_run None reporter (initialState size backend) ws tree
              Hc Hws Htree) as (s0 & Hc0 & _ & _ & Hstart).
  destruct (processAll_uncancelled W ix reporter (List.length reqs) reqs 0
              AbstractIndexer.zeroStats s0 Hc0) as (s1 & Hloop & Hstate & Hc1).
  unfold LspIndexer.start, try_finally. rewrite Hstart. fold reqs. rewrite Hloop.
  unfold mbind, M_bind, AbstractIndexer.isCancelled. simpl. rewrite Hc1. simpl.
  eexists _, _. split; [reflexivity|]. split_and!; [done|done|].
  rewrite count_foldl_mergeStats, sum_count_File_itemStats. done.
Qed.

(** The loop when the outside [cancel()] arrives after [k] items. *)
Lemma processAll_cancelled_after k reporter total reqs :
  ∀ processed stats s,
    cancelled s = false →
    (processed ≤ k)%nat →
    (k < processed + List.length reqs)%nat →
    ∃ s',
      AbstractIndexer.processAll (LspIndexer.methods W ix) (Some k) reporter total processed
        reqs stats s
      = (Ok (foldl AbstractIndexer.mergeStats stats
               (itemStats W ix <$> take (k - processed) reqs)), s')
      ∧ runState s' = Cancelled
      ∧ cancelled s' = true
      ∧ progress s'
        = progress s
          ++ (if reporter then (λ i, (i, total)) <$> seq (S processed) (k - processed) else []).
Proof.
  induction reqs as [|req reqs IH]; intros processed stats s Hc Hle Hlt.
  { simpl in Hlt. lia. }
  destruct (decide (processed = k)) as [->|Hne].
  - rewrite Nat.sub_diag. simpl.
    unfold mbind, M_bind, AbstractIndexer.outsideCancel. rewrite decide_True by done.
    simpl. eexists. split; [reflexivity|]. simpl.
    split_and!; [done|done|]. destruct reporter; by rewrite app_nil_r.
  - assert (k - processed = S (k - S processed))%nat as -> by lia.
    pose proof (processRequest_result W ix req s) as Hres.
    pose proof (processRequest_cancelled W ix req s) as Hcan.
    pose proof (processRequest_progress req s) as Hpro.
    simpl. unfold mbind, M_bind, AbstractIndexer.outsideCancel.
    rewrite decide_False by congruence. simpl. rewrite Hc. unfold try_catch.
    destruct (LspIndexer.processRequest W ix req s) as [r s1]. simpl in *.
    unfold itemStats at 1.
    destruct (readLocalFile W (localFilePath req)) as [content|e]; subst r; simpl.
    + destruct reporter; simpl.
      * destruct (IH (S processed) (AbstractIndexer.mergeStats stats
                        (<[File:=1]> (analysisLocals W ix req).1))
                    (add_progress (S processed, total) s1))
          as (s' & -> & H1 & H2 & H3); [simpl; congruence|lia|simpl in Hlt; lia|].
        eexists. split; [reflexivity|]. split_and!; [done|done|].
        rewrite H3. simpl. rewrite Hpro, <- app_assoc. done.
      * destruct (IH (S processed) (AbstractIndexer.mergeStats stats
                        (<[File:=1]> (analysisLocals W ix req).1)) s1)
          as (s' & -> & H1 & H2 & H3); [congruence|lia|simpl in Hlt; lia|].
        eexists. split; [reflexivity|]. split_and!; [done|done|].
        by rewrite H3, Hpro.
    + destruct reporter; simpl.
      * destruct (IH (S processed) (AbstractIndexer.mergeStats stats ∅)
                    (add_progress (S processed, total)
                       (add_log (LError, "Process index request error. " +:+ e) s1)))
          as (s' & -> & H1 & H2 & H3); [simpl; congruence|lia|simpl in Hlt; lia|].
        eexists. split; [reflexivity|]. split_and!; [done|done|].
        rewrite H3. simpl. rewrite Hpro, <- app_assoc. done.
      * destruct (IH (S processed) (AbstractIndexer.mergeStats stats ∅)
                    (add_log (LError, "Process index request error. " +:+ e) s1))
          as (s' & -> & H1 & H2 & H3); [simpl; congruence|lia|simpl in Hlt; lia|].
        eexists. split; [reflexivity|]. split_and!; [done|done|].
        rewrite H3. simpl. by rewrite Hpro.
Qed.

(** X11.  A run cancelled from outside after [k] of its N items (k < N)
    processes the first [k] requests and no other: it returns the
    statistics of those [k], in state Cancelled; a progress reporter has been
    told 1/N up to k/N; and the helper has received no [flush()] and holds
    nothing.  (The processing loop and the helper are the ones modelled from
    sections 4.1 and 4.2 of the specification.) *)
Theorem run_cancelled_after_k_items
    (k : nat) (reporter : bool) (size : nat) (backend : EsState)
    (ws : Workspace) (tree : FileTree W) :
  (∀ req, create_rejects (client ix) req = None) →
  openWorkspace (lspService ix) (repoUri ix) "head" = Ok ws →
  fileTree W (repoPath (options ix)) (repoUri ix) "" "HEAD"
    0%N MAX_SAFE_INTEGER false MAX_SAFE_INTEGER = Ok tree →
  let reqs := LspIndexer.mkRequest ix ws
                <$> List.filter (LspIndexer.keepFile W ix) (getAllFiles W tree) in
  (k < List.length reqs)%nat →
  ∃ s' : State,
    LspIndexer.start W ix (Some k) reporter (initialState size backend)
    = (Ok (foldl AbstractIndexer.mergeStats AbstractIndexer.zeroStats
             (itemStats W ix <$> take k reqs)), s')
    ∧ runState s' = Cancelled
    ∧ progress s'
      = (if reporter then (λ i, (i, List.length reqs)) <$> seq 1 k else [])
    ∧ filter is_flush_call (received_calls s') = []
    ∧ batch (batchIndexHelper s') = [].
Proof.
  intros Hc Hws Htree reqs Hk.
  pose proof (bufferInvariant_inherited_start W ix (Some k) reporter
                (initialState size backend)) as Hinv.
  destruct (inherited_start_run (Some k) reporter (initialState size backend) ws tree
              Hc Hws Htree) as (s0 & Hc0 & Hp0 & _ & Hstart).
  destruct (processAll_cancelled_after k reporter (List.length reqs) reqs 0
              AbstractIndexer.zeroStats s0 Hc0) as (s1 & Hloop & Hstate & Hc1 & Hp1);
    [lia|lia|].
  rewrite Nat.sub_0_r in Hloop, Hp1.
  fold reqs in Hstart. rewrite Hstart, Hloop in Hinv. simpl in Hinv.
  destruct Hinv as [Hflush Hcancel]; [by split|].
  destruct (Hcancel Hc1) as (_ & Hbatch & _).
  unfold LspIndexer.start, try_finally. rewrite Hstart, Hloop.
  unfold mbind, M_bind, AbstractIndexer.isCancelled. simpl. rewrite Hc1. simpl.
  eexists. split; [reflexivity|]. split_and!; [done| |done|done].
  by rewrite Hp1, Hp0.
Qed.

End WholeRunsFurther.

(** * Properties of triggers *)

Section TriggerProperties.

Import Triggers.

Lemma find_app_id (l1 l2 : list Action) (id : string) :
  List.find (λ action, bool_decide (action_id action = id)) (l1 ++ l2)
  = match List.find (λ action, bool_decide (action_id action = id)) l1 with
    | Some a => Some a
    | None => List.find (λ action, bool_decide (action_id action = id)) l2
    end.
Proof.
  induction l1 as [|a l1 IH]; [done|]. simpl.
  by destruct (bool_decide (action_id a = id)).
Qed.

Lemma containsAction_spec (t : Trigger) (id : string) :
  containsAction t id = true ↔ ∃ a, a ∈ actions t ∧ action_id a = id.
Proof.
  unfold containsAction.
  destruct (List.find _ (actions t)) as [a|] eqn:E.
  - apply List.find_some in E as [Hin Hid]. split; [|done]. intros _.
    exists a. split; [by apply list_elem_of_In|]. by apply bool_decide_eq_true in Hid.
  - split; [done|]. intros (a & Hin & Hid).
    pose proof (List.find_none _ _ E a) as H. simpl in H.
    rewrite bool_decide_eq_true_2 in H by done.
    apply list_elem_of_In in Hin. by specialize (H Hin).
Qed.

(** X12.  [containsAction] after [addAction] and [removeAction]: a trigger
    contains an id after an action is added if it contained it before or the
    added action has that id; after [removeAction(id')] it contains an id if
    it contained it before and the id is not [id']. *)
Theorem containsAction_after_add_and_remove (t : Trigger) (a : Action) (id id' : string) :
  containsAction (addAction t a) id
  = containsAction t id || bool_decide (action_id a = id)
  ∧ containsAction (removeAction t id') id
    = containsAction t id && negb (bool_decide (id = id')).
Proof.
  split.
  - unfold containsAction, addAction. simpl. rewrite find_app_id.
    destruct (List.find _ (actions t)); [done|]. simpl.
    by destruct (bool_decide (action_id a = id)).
  - apply eq_true_iff_eq. rewrite andb_true_iff, negb_true_iff, bool_decide_eq_false.
    rewrite !containsAction_spec. unfold removeAction. simpl. split.
    + intros (b & Hin & Hid). apply elem_of_List_filter in Hin as [Hin Hne].
      apply negb_true_iff, bool_decide_eq_false in Hne.
      split; [by exists b|congruence].
    + intros [(b & Hin & Hid) Hne]. exists b. split; [|done].
      apply elem_of_List_filter. split; [done|].
      apply negb_true_iff, bool_decide_eq_false. congruence.
Qed.

(** X13.  [removeAction] undoes [addAction] and removes every copy.  Adding
    an action whose id the trigger did not contain and removing that id gives
    the trigger back; [addAction] does not check for duplicates, and
    [removeAction] of an id removes all the actions that carry it; removing
    an id the trigger does not contain changes nothing. *)
Theorem removeAction_after_addAction (t : Trigger) (a : Action) :
  (containsAction t (action_id a) = false →
   removeAction (addAction t a) (action_id a) = t)
  ∧ getActions (addAction (addAction t a) a) = getActions t ++ [a; a]
  ∧ removeAction (addAction (addAction t a) a) (action_id a) = removeAction t (action_id a)
  ∧ ∀ id, containsAction t id = false → removeAction t id = t.
Proof.
  assert (∀ id, containsAction t id = false →
                List.filter (λ action, negb (bool_decide (action_id action = id))) (actions t)
                = actions t) as Hid.
  { intros id Hc. apply filter_all_true. intros b Hb.
    apply negb_true_iff, bool_decide_eq_false. intros Heq.
    assert (containsAction t id = true) as Ht by (apply containsAction_spec; eauto).
    congruence. }
  split_and!.
  - intros Hc. unfold removeAction, addAction, with_actions. simpl.
    rewrite List.filter_app, (Hid _ Hc). simpl.
    rewrite bool_decide_eq_true_2 by done. simpl. rewrite app_nil_r. by destruct t.
  - unfold getActions, addAction. simpl. by rewrite <- app_assoc.
  - unfold removeAction, addAction, with_actions. simpl.
    rewrite !List.filter_app. simpl.
    rewrite bool_decide_eq_true_2 by done. simpl. by rewrite !app_nil_r.
  - intros id Hc. unfold removeAction, with_actions. rewrite (Hid _ Hc). by destruct t.
Qed.

(** X14.  [getCompatibleActions].  Without an embeddable every action is
    compatible.  With one, the compatible actions are a sublist of the
    trigger's actions, in the same order: an action bound to an embeddable
    id is compatible exactly when that id is the embeddable's, whatever its
    embeddable type says; an action with no id but a type is compatible
    exactly when the type is the embeddable's; an action with neither is
    always compatible.  The container is not looked at. *)
Theorem getCompatibleActions_spec (t : Trigger) (c : Container) :
  getCompatibleActions t None c = getActions t
  ∧ (∀ embeddable, sublist (getCompatibleActions t embeddable c) (getActions t))
  ∧ (∀ e a,
       a ∈ getCompatibleActions t (Some e) c
       ↔ a ∈ getActions t
         ∧ ((action_embeddableId a ≠ "" ∧ action_embeddableId a = embeddable_id e)
            ∨ (action_embeddableId a = "" ∧ action_embeddableType a ≠ ""
               ∧ action_embeddableType a = embeddable_type e)
            ∨ (action_embeddableId a = "" ∧ action_embeddableType a = "")))
  ∧ ∀ embeddable c', getCompatibleActions t embeddable c' = getCompatibleActions t embeddable c.
Proof.
  split_and!.
  - unfold getCompatibleActions, getActions. by apply filter_all_true.
  - intros embeddable. apply filter_sublist.
  - intros e a. unfold getCompatibleActions, getActions.
    rewrite elem_of_List_filter. apply and_iff_compat_l.
    unfold keepsAction.
    destruct (decide (action_embeddableId a = "")) as [Hid|Hid].
    + rewrite (bool_decide_eq_true_2 _ Hid). simpl.
      destruct (decide (action_embeddableType a = "")) as [Hty|Hty].
      * rewrite (bool_decide_eq_true_2 _ Hty). simpl. split; [intros _|done].
        right. right. done.
      * rewrite (bool_decide_eq_false_2 _ Hty). simpl.
        rewrite negb_involutive, bool_decide_eq_true. split.
        -- intros H. right. left. done.
        -- intros [[? _]|[(_ & _ & ?)|[_ ?]]]; done.
    + rewrite (bool_decide_eq_false_2 _ Hid). simpl.
      rewrite negb_involutive, bool_decide_eq_true. split.
      * intros H. by left.
      * intros [[_ ?]|[(? & _)|[? _]]]; done.
  - done.
Qed.

(** X15.  Saving and rebuilding a trigger keeps its id, title, description,
    embeddable id and embeddable type, and loses its actions: the
    constructor does not read the [actions] attribute, so a trigger built
    from a saved object starts with no action, and so does one built from an
    id and a title, whose other fields are empty. *)
Theorem new_from_saved_attributes (t : Trigger) (plain : IdAndTitle) :
  new (inl {| so_id := trigger_id t; so_attributes := getSavedObjectAttributes t |})
  = with_actions [] t
  ∧ (∀ o, getActions (new o) = [] ∧ attr_actions (getSavedObjectAttributes (new o)) = "")
  ∧ getSavedObjectAttributes (new (inr plain))
    = {| attr_title := it_title plain; attr_description := "";
         attr_embeddableId := ""; attr_embeddableType := ""; attr_actions := "" |}.
Proof.
  split_and!; [done| |done].
  intros [saved|p]; done.
Qed.

End TriggerProperties.

(** * Properties of the action-type modal *)

Section ModalProperties.

Import CreateNewActionModal.

(** X16.  The modal can be constructed exactly when some registered action
    factory is not a singleton; with none, the constructor throws.  When it
    is constructed, the type it starts with is the id of the first factory
    that is not a singleton, which is the value of the first option it
    offers; and no option stands for a singleton factory. *)
Theorem modal_needs_a_creatable_factory (factories : list ActionFactory) :
  (is_Ok (new factories) = true ↔ ∃ f, f ∈ factories ∧ isSingleton f = false)
  ∧ (∀ st, new factories = Ok st →
           ∃ f before after,
             factories = before ++ f :: after
             ∧ (∀ g, g ∈ before → isSingleton g = true)
             ∧ isSingleton f = false
             ∧ newFactoryType st = factory_id f
             ∧ (value <$> getActionFactoryOptions factories) !! 0 = Some (newFactoryType st))
  ∧ ∀ o, o ∈ getActionFactoryOptions factories →
         ∃ f, f ∈ factories ∧ isSingleton f = false
              ∧ value o = factory_id f ∧ text o = factory_title f.
Proof.
  split_and!.
  - unfold new, getActionFactoryOptions. split.
    + destruct (List.filter _ factories) as [|f l] eqn:E; [done|]. intros _.
      assert (f ∈ List.filter (λ factory, negb (isSingleton factory)) factories) as Hin
        by (rewrite E; left).
      apply elem_of_List_filter in Hin as [Hin Hs]. exists f.
      split; [done|]. by apply negb_true_iff.
    + intros (f & Hin & Hs).
      assert (f ∈ List.filter (λ factory, negb (isSingleton factory)) factories) as Hf.
      { apply elem_of_List_filter. split; [done|]. by rewrite Hs. }
      destruct (List.filter _ factories); [by apply elem_of_nil in Hf|done].
  - intros st. unfold new, getActionFactoryOptions.
    induction factories as [|g l IH]; [done|]. simpl.
    destruct (isSingleton g) eqn:Hg; simpl.
    + intros H. destruct (IH H) as (f & before & after & -> & Hb & Hf & Hid & Hv).
      exists f, (g :: before), after. split_and!; [done| |done|done|done].
      intros g' [->|Hin]%elem_of_cons; [done|by apply Hb].
    + intros [= <-]. exists g, [], l. split_and!; [done| |done|done|done].
      intros g' Hin. by apply elem_of_nil in Hin.
  - intros o Hin. unfold getActionFactoryOptions in Hin.
    apply list_elem_of_fmap in Hin as (f & -> & Hf).
    apply elem_of_List_filter in Hf as [Hf Hs]. exists f.
    split_and!; [done| |done|done]. by apply negb_true_iff.
Qed.

End ModalProperties.

(** * Properties of the event editor *)

Section EventEditorProperties.

Import Triggers.

(** X17.  The editor and the triggers agree on which actions fit an
    embeddable: what [findActions] keeps of a list of actions is what a
    trigger holding those actions answers to [getCompatibleActions].  So an
    action a trigger reports as compatible is among the editor's actions
    whenever it is among the actions the editor was given. *)
Theorem findActions_agrees_with_getCompatibleActions
    (t : Trigger) (embeddable : option Embeddable) (c : Container) (all : list Action) :
  (getActions t = all →
   EventEditor.findActions embeddable all = getCompatibleActions t embeddable c)
  ∧ ∀ a, a ∈ getCompatibleActions t embeddable c → a ∈ all →
         a ∈ EventEditor.findActions embeddable all.
Proof.
  split.
  - intros <-. reflexivity.
  - intros a Ha Hall. unfold getCompatibleActions in Ha.
    apply elem_of_List_filter in Ha as [_ Hkeep].
    apply elem_of_List_filter. split; [done|exact Hkeep].
Qed.

End EventEditorProperties.

(** * The document of a symbolic link *)

Section LinkDocument.

Context (W : World) (ix : LspIndexerConfig).

(** X18.  The document of a symbolic link is described from the link text:
    its language is what [detectLanguage] answers for the file path and the
    text [readlink] returned, not for the content behind the link; its path
    is the path of the request (relative to the repository), and its
    repoUri is the request's. *)
Theorem processRequest_link_document_language
    (request : LspIndexRequest) (s : State) (target : string) :
  lstat W (localFilePath request) = Ok {| isSymbolicLink := true |} →
  readlink W (localFilePath request) = Ok target →
  ∃ names,
    last (received_calls (LspIndexer.processRequest W ix request s).2)
    = Some (CallIndex (DocumentIndexName W (req_repoUri request))
              (PDocument {| doc_repoUri := req_repoUri request;
                            doc_path := req_filePath request;
                            doc_content := target;
                            doc_language := detectLanguage W (req_filePath request) target;
                            doc_qnames := names |})).
Proof.
  intros Hstat Hlink.
  assert (readLocalFile W (localFilePath request) = Ok target) as Hread.
  { unfold readLocalFile. by rewrite Hstat. }
  exists (analysisLocals W ix request).2.
  rewrite processRequest_state, Hread. unfold received_calls.
  rewrite helper_set_helper, helper_add_logs, received_after_index.
  rewrite fmap_app, app_assoc. simpl. by rewrite last_snoc.
Qed.

End LinkDocument.

(** * The further properties on the small repository *)

(** locked.ts: the read error comes out, the analysis answer does not
    matter. *)
Lemma processRequest_throws_only_read_errors_witness :
  (LspIndexer.processRequest world ix (request "locked.ts") fresh).1 = Throw "EACCES"
  ∧ AbstractIndexer.count File (mkStats 0 0 1) = 1.
Proof.
  destruct (processRequest_throws_only_read_errors world ix (request "locked.ts") fresh
              "EACCES") as [[_ Hthrow] _].
  destruct (processRequest_throws_only_read_errors world ix (request "b.ts") fresh
              "EACCES") as [_ Hstats].
  split.
  - apply Hthrow. right. right. exists {| isSymbolicLink := false |}.
    split_and!; vm_compute; reflexivity.
  - apply (Hstats (mkStats 0 0 1)). vm_compute; reflexivity.
Defined.

(** a.ts returns f, g, f: qnames is f, g and Symbol is 3. *)
Lemma processRequest_qnames_in_first_occurrence_order_witness :
  last (received_calls (LspIndexer.processRequest world ix (request "a.ts") fresh).2)
  = Some (CallIndex ".code-document-github.com/elastic/demo"
            (PDocument {| doc_repoUri := uri; doc_path := "a.ts";
                          doc_content := "export const f = g()";
                          doc_language := "typescript"; doc_qnames := ["f"; "g"] |})).
Proof.
  assert (analysis world ix (request "a.ts")
          = Ok (Some {| result := firstResult :: [secondResult] |})) as H1
    by (vm_compute; reflexivity).
  assert (readLocalFile world (localFilePath (request "a.ts")) = Ok "export const f = g()")
    as H2 by (vm_compute; reflexivity).
  destruct (processRequest_qnames_in_first_occurrence_order world ix (request "a.ts") fresh
              firstResult [secondResult] "export const f = g()" H1 H2) as [-> _].
  vm_compute; reflexivity.
Defined.

(** The workspace cannot be opened: that error, and two log entries. *)
Lemma prepareRequests_throws_only_enumeration_errors_witness :
  (LspIndexer.prepareRequests world (indexer "r1" lspWithoutWorkspace healthyClient) fresh).1
  = Throw "workspace unavailable"
  ∧ log (LspIndexer.prepareRequests world
           (indexer "r1" lspWithoutWorkspace healthyClient) fresh).2
    = [(LError, "Prepare lsp indexing requests error."); (LError, "workspace unavailable")]
  ∧ (LspIndexer.prepareRequests world ix fresh).2 = fresh.
Proof.
  assert (enumerationFails world (indexer "r1" lspWithoutWorkspace healthyClient)
            "workspace unavailable") as H by (left; vm_compute; reflexivity).
  destruct (prepareRequests_throws_only_enumeration_errors world
              (indexer "r1" lspWithoutWorkspace healthyClient) fresh
              "workspace unavailable") as ([_ Hthrow] & Hlog & _).
  destruct (prepareRequests_throws_only_enumeration_errors world ix fresh "")
    as (_ & _ & Hsame).
  split_and!; [by apply Hthrow|by rewrite Hlog|].
  apply Hsame. vm_compute; reflexivity.
Defined.


(** A collection cleanup does not know is left as it is. *)
Lemma cleanIndex_only_removes_witness :
  indices (es (LspIndexer.cleanIndex world ix uri fresh).2) !! ".kibana"
  = indices (es fresh) !! ".kibana".
Proof.
  destruct (cleanIndex_only_removes world ix uri fresh ".kibana") as (_ & _ & H).
  apply H; vm_compute; discriminate.
Defined.

(** With a backend that rejects the references deletion, the symbols
    collection is still emptied. *)
Lemma cleanIndex_empties_symbols_and_references_witness :
  stored ".code-symbol-github.com/elastic/demo"
    (LspIndexer.cleanIndex world (indexer "r1" lsp flakyClient) uri fresh).2 = []
  ∧ stored ".code-reference-github.com/elastic/demo"
      (LspIndexer.cleanIndex world ix uri fresh).2 = [].
Proof.
  destruct (cleanIndex_empties_symbols_and_references world (indexer "r1" lsp flakyClient)
              uri fresh) as [H1 _].
  destruct (cleanIndex_empties_symbols_and_references world ix uri fresh) as [_ H2].
  split; [apply H1|apply H2]; vm_compute; reflexivity.
Defined.

(** Five files are enumerated; locked.ts and ghost.ts cannot be read: the
    run completes with File = 3. *)
Lemma run_counts_the_readable_files_witness :
  ∃ stats s',
    LspIndexer.start Scenario2.world ix None true fresh = (Ok stats, s')
    ∧ runState s' = Completed
    ∧ AbstractIndexer.count File stats = 3.
Proof.
  destruct (run_counts_the_readable_files Scenario2.world ix true 1000 backend
              Scenario2.headWorkspace
              ["a.ts"; "locked.ts"; "b.ts"; "ghost.ts"; "link.ts"])
    as (stats & s' & Hrun & Hstate & _ & Hfile).
  - by intros req.
  - vm_compute; reflexivity.
  - vm_compute; reflexivity.
  - exists stats, s'. split_and!; [exact Hrun|exact Hstate|].
    rewrite Hfile. vm_compute; reflexivity.
Defined.

(** Cancelled after the first of three items: the statistics are those of
    a.ts, and one progress report was made. *)
Lemma run_cancelled_after_k_items_witness :
  ∃ s',
    LspIndexer.start world ix (Some 1) true fresh = (Ok (mkStats 3 1 1), s')
    ∧ runState s' = Cancelled
    ∧ progress s' = [(1, 3)]
    ∧ filter is_flush_call (received_calls s') = [].
Proof.
  destruct (run_cancelled_after_k_items world ix 1 true 1000 backend
              Scenario2.headWorkspace ["a.ts"; "README.md"; "b.ts"; "link.ts"; "Makefile"])
    as (s' & Hrun & Hstate & Hprogress & Hflush & _).
  - by intros req.
  - vm_compute; reflexivity.
  - vm_compute; reflexivity.
  - vm_compute. lia.
  - exists s'. split_and!; [|exact Hstate|exact Hprogress|exact Hflush].
    unfold fresh. rewrite Hrun. reflexivity.
Defined.

(** Adding the action "drill" and removing it gives the trigger back. *)
Lemma removeAction_after_addAction_witness :
  Triggers.removeAction (Triggers.addAction Scenario2.trigger Scenario2.drill) "drill"
  = Scenario2.trigger
  ∧ Triggers.removeAction Scenario2.trigger "drill" = Scenario2.trigger.
Proof.
  destruct (removeAction_after_addAction Scenario2.trigger Scenario2.drill)
    as (Hback & _ & _ & Hnone).
  split; [apply Hback|apply Hnone]; vm_compute; reflexivity.
Defined.

(** One singleton factory and one that is not: the modal starts on the
    second. *)
Lemma modal_needs_a_creatable_factory_witness :
  is_Ok (CreateNewActionModal.new Scenario2.factories) = true
  ∧ (∃ f, f ∈ Scenario2.factories
          ∧ CreateNewActionModal.isSingleton f = false
          ∧ CreateNewActionModal.factory_id f = "NAVIGATE")
  ∧ is_Ok (CreateNewActionModal.new []) = false.
Proof.
  destruct (modal_needs_a_creatable_factory Scenario2.factories) as ([_ Hok] & Hfirst & _).
  split_and!.
  - apply Hok. eexists. split; [right; left|reflexivity].
  - destruct (Hfirst {| CreateNewActionModal.newFactoryType := "NAVIGATE" |} eq_refl)
      as (f & before & after & Heq & _ & Hs & Hid & _).
    exists f. split_and!; [|done|done].
    rewrite Heq. apply elem_of_app. right. left.
  - reflexivity.
Defined.

(** The editor keeps the unbound action "open" for any embeddable, and drops
    "drill", bound to another panel. *)
Lemma findActions_agrees_with_getCompatibleActions_witness :
  EventEditor.findActions
    (Some {| Triggers.embeddable_id := "panel-2"; Triggers.embeddable_type := "map" |})
    [Scenario2.open; Scenario2.drill]
  = [Scenario2.open].
Proof.
  destruct (findActions_agrees_with_getCompatibleActions
              (Triggers.addAction Scenario2.trigger Scenario2.drill)
              (Some {| Triggers.embeddable_id := "panel-2"; Triggers.embeddable_type := "map" |})
              {| Triggers.container_id := "dashboard" |}
              [Scenario2.open; Scenario2.drill]) as [-> _].
  - reflexivity.
  - vm_compute; reflexivity.
Defined.

(** link.ts: the language is asked for the link text "a.ts". *)
Lemma processRequest_link_document_language_witness :
  ∃ names,
    last (received_calls (LspIndexer.processRequest world ix (request "link.ts") fresh).2)
    = Some (CallIndex (DocumentIndexName world uri)
              (PDocument {| doc_repoUri := uri; doc_path := "link.ts";
                            doc_content := "a.ts";
                            doc_language := detectLanguage world "link.ts" "a.ts";
                            doc_qnames := names |})).
Proof.
  apply (processRequest_link_document_language world ix (request "link.ts") fresh "a.ts");
    vm_compute; reflexivity.
Defined.
